(** * dendron-to-logseq: the hierarchy-to-path mapping of [Vault]

    A shallow embedding of the [Vault] class of [src/dendron-to-logseq.mjs]
    and of the JavaScript string methods and Node.js [path] functions it
    calls, followed by the properties of the destination-path computation.

    JavaScript strings are modelled as [string]: a finite sequence of
    character codes.  The program only compares codes with the three ASCII
    characters [/], [.] and [_] and measures lengths in code units, so the
    width of a code unit plays no role. *)

From Stdlib Require Import Strings.String Strings.Ascii.
From Stdlib Require Import Lists.List.
From Stdlib Require Import ZArith Bool Lia.
Import ListNotations.

Local Open Scope string_scope.
Local Open Scope Z_scope.

(* ===================================================================== *)
(** ** JavaScript values and string methods used by the program *)
(* ===================================================================== *)

(** What a method hands back: a value, or a thrown [Error] with its
    message. *)
Inductive completion (A : Type) : Type :=
| Return (a : A)
| Throw (message : string).
Arguments Return {A} a.
Arguments Throw {A} message.

(** The values [isDendronJournalNode] can return: a bare [return;] gives
    [undefined], [String.prototype.startsWith] gives a boolean. *)
Inductive jsval : Type :=
| undefined
| boolean (b : bool).

(** ToBoolean, as applied by the [if] of [logseqDestPath]. *)
Definition truthy (v : jsval) : bool :=
  match v with
  | undefined => false
  | boolean b => b
  end.

Module JsString.

(** [s.length], as an integer: the number of code units of [s]. *)
Definition len (s : string) : Z := Z.of_nat (String.length s).

(** [s.startsWith(searchString)]. *)
Definition startsWith (s searchString : string) : bool :=
  String.prefix searchString s.

(** Relative index of [slice]: negative counts from the end, and the
    result is clamped to [0 .. length]. *)
Definition clamp (n : Z) (k : Z) : Z :=
  if k <? 0 then Z.max (n + k) 0 else Z.min k n.

(** [s.slice(start, end)]; [None] is an omitted [end]. *)
Definition slice (s : string) (start : Z) (end_ : option Z) : string :=
  let n := len s in
  let from := clamp n start in
  let to := match end_ with
            | None => n
            | Some e => clamp n e
            end in
  String.substring (Z.to_nat from) (Z.to_nat (Z.max (to - from) 0)) s.

(** [s.replace(/\./g, replacement)] for a replacement without [$]
    patterns: every [.] becomes [replacement], every other character is
    kept. *)
Fixpoint replaceDots (replacement : string) (s : string) : string :=
  match s with
  | EmptyString => EmptyString
  | String c rest =>
      if Ascii.eqb c "."%char
      then replacement ++ replaceDots replacement rest
      else String c (replaceDots replacement rest)
  end.

End JsString.

(* ===================================================================== *)
(** ** Node.js [path] (POSIX flavour)

    The program imports [path] from Node.js; the module is not part of the
    repository.  The definitions below follow the POSIX implementation of
    [basename], [normalize] and [join] in Node's [lib/path.js], loop by
    loop, so that the quirks of the real functions are kept. *)
(* ===================================================================== *)

Module path.

Definition CHAR_FORWARD_SLASH : ascii := "/"%char.
Definition CHAR_DOT : ascii := "."%char.

Definition isPosixPathSeparator (code : ascii) : bool :=
  Ascii.eqb code CHAR_FORWARD_SLASH.

(** [code === suffix.charCodeAt(idx)]; out of range [charCodeAt] is NaN,
    equal to nothing. *)
Definition codeIs (code : ascii) (s : string) (idx : Z) : bool :=
  if idx <? 0 then false
  else match String.get (Z.to_nat idx) s with
       | Some c => Ascii.eqb code c
       | None => false
       end.

(** The codes visited by [for (let i = path.length - 1; i >= 0; --i)]:
    [path[length-1]], ..., [path[0]]. *)
Definition codesFromEnd (p : string) : list ascii :=
  rev (list_ascii_of_string p).

(** *** [basename(path)] without a suffix *)

Record plain_state : Type := mkPlain {
  p_start : Z;
  p_end : Z;
  p_matchedSlash : bool
}.

(** One run of the loop over the remaining codes, [i] being the index of
    the first of them.  The early return is the [break]. *)
Fixpoint basenamePlainLoop (codes : list ascii) (i : Z) (st : plain_state)
  : plain_state :=
  match codes with
  | [] => st
  | code :: rest =>
      if isPosixPathSeparator code then
        if negb (p_matchedSlash st)
        then mkPlain (i + 1) (p_end st) (p_matchedSlash st)
        else basenamePlainLoop rest (i - 1) st
      else if p_end st =? -1 then
        basenamePlainLoop rest (i - 1) (mkPlain (p_start st) (i + 1) false)
      else basenamePlainLoop rest (i - 1) st
  end.

Definition basenamePlain (p : string) : string :=
  let st := basenamePlainLoop (codesFromEnd p) (JsString.len p - 1)
              (mkPlain 0 (-1) true) in
  if p_end st =? -1 then EmptyString
  else JsString.slice p (p_start st) (Some (p_end st)).

(** *** [basename(path, suffix)] with a non-empty suffix no longer than
    the path *)

Record ext_state : Type := mkExt {
  e_start : Z;
  e_end : Z;
  e_matchedSlash : bool;
  e_extIdx : Z;
  e_firstNonSlashEnd : Z
}.

(** The non-separator branch of the loop body at index [i]. *)
Definition basenameExtStep (suffix : string) (code : ascii) (i : Z)
    (st : ext_state) : ext_state :=
  let st1 :=
    if e_firstNonSlashEnd st =? -1
    then mkExt (e_start st) (e_end st) false (e_extIdx st) (i + 1)
    else st in
  if 0 <=? e_extIdx st1 then
    if codeIs code suffix (e_extIdx st1) then
      let extIdx' := e_extIdx st1 - 1 in
      if extIdx' =? -1
      then mkExt (e_start st1) i (e_matchedSlash st1) extIdx'
                 (e_firstNonSlashEnd st1)
      else mkExt (e_start st1) (e_end st1) (e_matchedSlash st1) extIdx'
                 (e_firstNonSlashEnd st1)
    else mkExt (e_start st1) (e_firstNonSlashEnd st1) (e_matchedSlash st1)
               (-1) (e_firstNonSlashEnd st1)
  else st1.

Fixpoint basenameExtLoop (suffix : string) (codes : list ascii) (i : Z)
    (st : ext_state) : ext_state :=
  match codes with
  | [] => st
  | code :: rest =>
      if isPosixPathSeparator code then
        if negb (e_matchedSlash st)
        then mkExt (i + 1) (e_end st) (e_matchedSlash st) (e_extIdx st)
                   (e_firstNonSlashEnd st)
        else basenameExtLoop suffix rest (i - 1) st
      else basenameExtLoop suffix rest (i - 1)
             (basenameExtStep suffix code i st)
  end.

Definition basenameExt (p suffix : string) : string :=
  if String.eqb suffix p then EmptyString
  else
    let st := basenameExtLoop suffix (codesFromEnd p) (JsString.len p - 1)
                (mkExt 0 (-1) true (JsString.len suffix - 1) (-1)) in
    let end_ :=
      if e_start st =? e_end st then e_firstNonSlashEnd st
      else if e_end st =? -1 then JsString.len p
      else e_end st in
    JsString.slice p (e_start st) (Some end_).

(** [path.basename(path, suffix)]; [None] is an omitted suffix. *)
Definition basename (p : string) (suffix : option string) : string :=
  match suffix with
  | Some sfx =>
      if (0 <? JsString.len sfx) && (JsString.len sfx <=? JsString.len p)
      then basenameExt p sfx
      else basenamePlain p
  | None => basenamePlain p
  end.

(** *** [normalizeString(path, allowAboveRoot, "/", isPosixPathSeparator)] *)

Record norm_state : Type := mkNorm {
  n_res : string;
  n_lastSegmentLength : Z;
  n_lastSlash : Z;
  n_dots : Z
}.

(** [res.lastIndexOf("/")], [-1] when there is none. *)
Fixpoint lastIndexOfSlashFrom (s : string) (i : Z) (found : Z) : Z :=
  match s with
  | EmptyString => found
  | String c rest =>
      lastIndexOfSlashFrom rest (i + 1)
        (if isPosixPathSeparator c then i else found)
  end.

Definition lastIndexOfSlash (s : string) : Z := lastIndexOfSlashFrom s 0 (-1).

Definition resEndsWithDotDot (res : string) : bool :=
  codeIs CHAR_DOT res (JsString.len res - 1)
  && codeIs CHAR_DOT res (JsString.len res - 2).

(** The loop body at index [i] once [code] is a separator. *)
Definition normalizeSeparator (p : string) (allowAboveRoot : bool) (i : Z)
    (st : norm_state) : norm_state :=
  let res := n_res st in
  if (n_lastSlash st =? i - 1) || (n_dots st =? 1) then
    mkNorm res (n_lastSegmentLength st) i 0
  else if n_dots st =? 2 then
    if (JsString.len res <? 2) || negb (n_lastSegmentLength st =? 2)
       || negb (resEndsWithDotDot res)
    then
      if 2 <? JsString.len res then
        let lastSlashIndex := lastIndexOfSlash res in
        if lastSlashIndex =? -1 then mkNorm EmptyString 0 i 0
        else
          let res' := JsString.slice res 0 (Some lastSlashIndex) in
          mkNorm res' (JsString.len res' - 1 - lastIndexOfSlash res') i 0
      else if negb (JsString.len res =? 0) then mkNorm EmptyString 0 i 0
      else if allowAboveRoot then
        mkNorm (if 0 <? JsString.len res then res ++ "/.." else "..") 2 i 0
      else mkNorm res (n_lastSegmentLength st) i 0
    else if allowAboveRoot then
      mkNorm (if 0 <? JsString.len res then res ++ "/.." else "..") 2 i 0
    else mkNorm res (n_lastSegmentLength st) i 0
  else
    let segment := JsString.slice p (n_lastSlash st + 1) (Some i) in
    mkNorm (if 0 <? JsString.len res then res ++ "/" ++ segment else segment)
           (i - n_lastSlash st - 1) i 0.

(** The loop body at index [i] for any [code]. *)
Definition normalizeStep (p : string) (allowAboveRoot : bool) (i : Z)
    (code : ascii) (st : norm_state) : norm_state :=
  if isPosixPathSeparator code then normalizeSeparator p allowAboveRoot i st
  else if Ascii.eqb code CHAR_DOT && negb (n_dots st =? -1) then
    mkNorm (n_res st) (n_lastSegmentLength st) (n_lastSlash st) (n_dots st + 1)
  else mkNorm (n_res st) (n_lastSegmentLength st) (n_lastSlash st) (-1).

(** [for (let i = 0; i <= path.length; ++i)]: [codes] are the codes from
    index [i] on and [code] is the one read last; the pass at
    [i = path.length] stops after a separator and otherwise acts as if it
    read one. *)
Fixpoint normalizeLoop (p : string) (allowAboveRoot : bool)
    (codes : list ascii) (i : Z) (code : ascii) (st : norm_state)
  : norm_state :=
  match codes with
  | [] =>
      if isPosixPathSeparator code then st
      else normalizeStep p allowAboveRoot i CHAR_FORWARD_SLASH st
  | c :: rest =>
      normalizeLoop p allowAboveRoot rest (i + 1) c
        (normalizeStep p allowAboveRoot i c st)
  end.

Definition normalizeString (p : string) (allowAboveRoot : bool) : string :=
  n_res (normalizeLoop p allowAboveRoot (list_ascii_of_string p) 0 zero
           (mkNorm EmptyString 0 (-1) 0)).

(** [path.normalize(path)]. *)
Definition normalize (p : string) : string :=
  if JsString.len p =? 0 then "."
  else
    let isAbsolute := codeIs CHAR_FORWARD_SLASH p 0 in
    let trailingSeparator := codeIs CHAR_FORWARD_SLASH p (JsString.len p - 1) in
    let p' := normalizeString p (negb isAbsolute) in
    if JsString.len p' =? 0 then
      if isAbsolute then "/"
      else if trailingSeparator then "./" else "."
    else
      let p'' := if trailingSeparator then p' ++ "/" else p' in
      if isAbsolute then "/" ++ p'' else p''.

(** The accumulation loop of [join]: [None] is [joined === undefined]. *)
Fixpoint joinArgs (args : list string) (joined : option string)
  : option string :=
  match args with
  | [] => joined
  | arg :: rest =>
      joinArgs rest
        (if 0 <? JsString.len arg then
           match joined with
           | None => Some arg
           | Some j => Some (j ++ "/" ++ arg)
           end
         else joined)
  end.

(** [path.join(...args)]. *)
Definition join (args : list string) : string :=
  match joinArgs args None with
  | None => "."
  | Some joined => normalize joined
  end.

End path.

(* ===================================================================== *)
(** ** [class Vault] *)
(* ===================================================================== *)

(** The three fields set by the constructor.  [dendronJournalHierarchy] is
    only ever tested with [typeof ... !== "string"]: [Some root] is a string
    value, [None] any other value ([undefined] when not configured). *)
Record Vault : Type := mkVault {
  dendronVault : string;
  logseqGraph : string;
  dendronJournalHierarchy : option string
}.

Definition dendronNodeHierarchyPosition (this : Vault) (dendronNodePath : string)
  : string :=
  path.basename dendronNodePath (Some ".md").

Definition isDendronJournalNode (this : Vault) (dendronNodePath : string)
  : jsval :=
  match dendronJournalHierarchy this with
  | None => undefined
  | Some hierarchy =>
      let absHierarchyPos := dendronNodeHierarchyPosition this dendronNodePath in
      boolean (JsString.startsWith absHierarchyPos (hierarchy ++ "."))
  end.

Definition logseqJournalDir (this : Vault) : string :=
  path.join [logseqGraph this; "journals"].

Definition logseqPageDir (this : Vault) : string :=
  path.join [logseqGraph this; "pages"].

(** The expression [absHierarchyPos.replace(/\./g, "___")] of
    [logseqPagePath]: the page flattening of an identifier. *)
Definition flattenForPage (absHierarchyPos : string) : string :=
  JsString.replaceDots "___" absHierarchyPos.

(** The expression
    [absHierarchyPos.slice(hierarchy.length + 1).replace(/\./g, "_")] of
    [logseqJournalPath]: the journal flattening of an identifier. *)
Definition flattenForJournalSuffix (absHierarchyPos hierarchy : string)
  : string :=
  JsString.replaceDots "_"
    (JsString.slice absHierarchyPos (JsString.len hierarchy + 1) None).

Definition logseqJournalPath (this : Vault) (dendronNodePath : string)
  : completion string :=
  match dendronJournalHierarchy this with
  | None =>
      Throw "can't template journal path without Dendron hierarchy location"
  | Some hierarchy =>
      let absHierarchyPos := dendronNodeHierarchyPosition this dendronNodePath in
      let relHierarchyPos := flattenForJournalSuffix absHierarchyPos hierarchy in
      Return (path.join [logseqJournalDir this; relHierarchyPos ++ ".md"])
  end.

Definition logseqPagePath (this : Vault) (dendronNodePath : string) : string :=
  let absHierarchyPos := dendronNodeHierarchyPosition this dendronNodePath in
  path.join [logseqPageDir this; flattenForPage absHierarchyPos ++ ".md"].

Definition logseqDestPath (this : Vault) (dendronNodePath : string)
  : completion string :=
  if truthy (isDendronJournalNode this dendronNodePath)
  then logseqJournalPath this dendronNodePath
  else Return (logseqPagePath this dendronNodePath).

(** The binding of the end-to-end scenarios, with and without a journal
    root. *)
Definition dailyVault : Vault := mkVault "/v" "/g" (Some "daily").
Definition plainVault : Vault := mkVault "/v" "/g" None.

(* ===================================================================== *)
(** ** Vocabulary of the specification that has no counterpart in the
    source *)
(* ===================================================================== *)

(** Number of occurrences of the character [c] in [s]. *)
Fixpoint countChar (c : ascii) (s : string) : nat :=
  match s with
  | EmptyString => 0
  | String a rest => (if Ascii.eqb a c then 1 else 0) + countChar c rest
  end.

(** Number of occurrences of [pat] in [s], counted from the left without
    overlap, as [s.split(pat).length - 1] does; [skip] characters are still
    covered by the occurrence found last. *)
Fixpoint countOccurrencesFrom (pat : string) (skip : nat) (s : string) : nat :=
  match s with
  | EmptyString => 0
  | String _ rest =>
      match skip with
      | S k => countOccurrencesFrom pat k rest
      | O =>
          if String.prefix pat s
          then S (countOccurrencesFrom pat (Nat.pred (String.length pat)) rest)
          else countOccurrencesFrom pat 0 rest
      end
  end%nat.

Definition countOccurrences (pat s : string) : nat :=
  countOccurrencesFrom pat 0 s.

(** Number of positions of [s] at which [pat] starts (overlaps counted). *)
Fixpoint countPositions (pat s : string) : nat :=
  match s with
  | EmptyString => 0
  | String _ rest =>
      (if String.prefix pat s then 1 else 0) + countPositions pat rest
  end%nat.

(** [s.replace(/___/g, ".")], the reversal of the page flattening's delimiter
    substitution: scanning from the left, every ["___"] becomes ["."]. *)
Fixpoint unflattenFrom (skip : nat) (s : string) : string :=
  match s with
  | EmptyString => EmptyString
  | String c rest =>
      match skip with
      | S k => unflattenFrom k rest
      | O =>
          if String.prefix "___" s
          then String "."%char (unflattenFrom 2 rest)
          else String c (unflattenFrom 0 rest)
      end
  end.

Definition unflattenPage (s : string) : string := unflattenFrom 0 s.

(** [[0-9A-Za-z]]. *)
Definition isAlphanumeric (c : ascii) : bool :=
  let n := nat_of_ascii c in
  ((48 <=? n) && (n <=? 57) || (65 <=? n) && (n <=? 90)
   || (97 <=? n) && (n <=? 122))%nat.

Fixpoint allChars (f : ascii -> bool) (s : string) : bool :=
  match s with
  | EmptyString => true
  | String c rest => f c && allChars f rest
  end.

(** A segment built only from alphanumeric characters. *)
Definition alphanumericSegment (seg : string) : Prop :=
  allChars isAlphanumeric seg = true.

(** The identifier whose dot-delimited segments are [segments]. *)
Definition identifierOfSegments (segments : list string) : string :=
  String.concat "." segments.

Definition noUnderscore (s : string) : Prop :=
  allChars (fun c => negb (Ascii.eqb c "_"%char)) s = true.

(** No two dots are adjacent: no segment between two dots is empty. *)
Fixpoint adjacentDotFree (s : string) : bool :=
  match s with
  | EmptyString => true
  | String c rest =>
      negb (Ascii.eqb c "."%char
            && match rest with
               | String c' _ => Ascii.eqb c' "."%char
               | EmptyString => false
               end)
      && adjacentDotFree rest
  end.

Definition noAdjacentDots (s : string) : Prop := adjacentDotFree s = true.

Definition noDot (s : string) : Prop :=
  allChars (fun c => negb (Ascii.eqb c "."%char)) s = true.

(** The last character of [p] is a path separator. *)
Definition endsWithSlash (p : string) : bool :=
  match path.codesFromEnd p with
  | [] => false
  | code :: _ => path.isPosixPathSeparator code
  end.

(* ===================================================================== *)
(** ** Vocabulary for the result of [path.basename] *)
(* ===================================================================== *)

(** Of the codes read from the end, those before the first separator: the
    last path component, reversed. *)
Fixpoint lastComponentRev (codes : list ascii) : list ascii :=
  match codes with
  | [] => []
  | code :: rest =>
      if path.isPosixPathSeparator code then []
      else code :: lastComponentRev rest
  end.

(** The codes from that separator on: everything before the last
    component, reversed. *)
Fixpoint beforeComponentRev (codes : list ascii) : list ascii :=
  match codes with
  | [] => []
  | code :: rest =>
      if path.isPosixPathSeparator code then codes
      else beforeComponentRev rest
  end.

(** A reversed component without its [.md], unless that is all of it. *)
Definition stripMdRev (rf : list ascii) : list ascii :=
  match rf with
  | c1 :: c2 :: c3 :: c4 :: rest =>
      if Ascii.eqb c1 "d"%char && Ascii.eqb c2 "m"%char && Ascii.eqb c3 "."%char
      then c4 :: rest
      else rf
  | _ => rf
  end.

(** A file name without its [.md] extension; the name [.md] itself is
    kept. *)
Definition stripMd (name : string) : string :=
  string_of_list_ascii (rev (stripMdRev (rev (list_ascii_of_string name)))).

(** The [end] that [basename] slices at, computed from the final state of
    the loop and the length [n] of the path. *)
Definition finalEnd (st : path.ext_state) (n : Z) : Z :=
  if path.e_start st =? path.e_end st then path.e_firstNonSlashEnd st
  else if path.e_end st =? -1 then n
  else path.e_end st.

(* ===================================================================== *)
(** ** Vocabulary for destination roots and file names *)
(* ===================================================================== *)

Definition noSlash (s : string) : Prop :=
  allChars (fun c => negb (path.isPosixPathSeparator c)) s = true.

(** A path segment that [path.normalize] keeps as it is: not empty, without
    separator, and neither [.] nor [..]. *)
Definition plainSegment (seg : string) : Prop :=
  seg <> "" /\ noSlash seg /\ seg <> "." /\ seg <> "..".

(** The absolute or relative path with the given segments. *)
Definition plainPath (absolute : bool) (segments : list string) : string :=
  (if absolute then "/" else "") ++ String.concat "/" segments.

(** A destination root in normal form that names a directory other than
    [/] or [.]: [/g], [/home/me/graph], [out/graph]. *)
Definition plainRoot (root : string) : Prop :=
  exists (absolute : bool) (segments : list string),
    segments <> [] /\ Forall plainSegment segments
    /\ root = plainPath absolute segments.

(** The passes of the loop of [normalizeString] over [codes], the first of
    them at index [i], without the closing pass at [path.length]. *)
Fixpoint normalizeRun (p : string) (allowAboveRoot : bool)
    (codes : list ascii) (i : Z) (st : path.norm_state) : path.norm_state :=
  match codes with
  | [] => st
  | c :: rest =>
      normalizeRun p allowAboveRoot rest (i + 1)
        (path.normalizeStep p allowAboveRoot i c st)
  end.

(** The counter [dots] after reading [codes], none of them a separator. *)
Fixpoint dotsAfter (dots : Z) (codes : list ascii) : Z :=
  match codes with
  | [] => dots
  | c :: rest =>
      dotsAfter (if Ascii.eqb c path.CHAR_DOT && negb (dots =? -1)
                 then dots + 1 else -1) rest
  end.

(** [res] after a kept segment is added to it. *)
Definition appendSegment (res seg : string) : string :=
  if 0 <? JsString.len res then res ++ "/" ++ seg else seg.

(* ===================================================================== *)
(** ** Vocabulary for counting the escape sequence in a page flattening *)
(* ===================================================================== *)

(** The occurrences of ["___"] in [s] counted by runs of underscores, one
    for each three in a row; [pending] underscores (0, 1 or 2) stand right
    before [s] and belong to no occurrence yet. *)
Fixpoint tripleRuns (pending : nat) (s : string) : nat :=
  match s with
  | EmptyString => 0
  | String c rest =>
      if Ascii.eqb c "_"%char then
        if Nat.eqb pending 2 then S (tripleRuns 0 rest)
        else tripleRuns (S pending) rest
      else tripleRuns 0 rest
  end%nat.

(** The triples of underscores of an identifier: in each maximal stretch
    made of underscores and dots, one for every three underscores.
    [pending] counts the underscores of the current stretch that are in no
    triple yet. *)
Fixpoint underscoreTriplesFrom (pending : nat) (s : string) : nat :=
  match s with
  | EmptyString => 0
  | String c rest =>
      if Ascii.eqb c "_"%char then
        if Nat.eqb pending 2 then S (underscoreTriplesFrom 0 rest)
        else underscoreTriplesFrom (S pending) rest
      else if Ascii.eqb c "."%char then underscoreTriplesFrom pending rest
      else underscoreTriplesFrom 0 rest
  end%nat.

Definition underscoreTriples (s : string) : nat := underscoreTriplesFrom 0 s.

(** With how many underscores the page flattening of [s] begins, a dot
    standing for its three and ending the count. *)
Fixpoint leadingUnderscores (s : string) : nat :=
  match s with
  | EmptyString => 0
  | String c rest =>
      if Ascii.eqb c "."%char then 3
      else if Ascii.eqb c "_"%char then S (leadingUnderscores rest)
      else 0
  end%nat.

(** The positions of the page flattening of [s] at which ["___"] starts,
    other than the first character of a replaced dot: two candidates after
    each dot, one at each underscore. *)
Fixpoint overlapExcess (s : string) : nat :=
  match s with
  | EmptyString => 0
  | String c rest =>
      (if Ascii.eqb c "."%char then
         (if Nat.leb 1 (leadingUnderscores rest) then 1 else 0)
         + (if Nat.leb 2 (leadingUnderscores rest) then 1 else 0)
       else if Ascii.eqb c "_"%char then
         (if Nat.leb 2 (leadingUnderscores rest) then 1 else 0)
       else 0)
      + overlapExcess rest
  end%nat.

(* ===================================================================== *)
(** ** The model of [path] on Node's documented cases *)
(* ===================================================================== *)

(** Node's own test expectations for [basename], replayed on the model. *)
Example basename_node_tests :
  path.basename ".js" (Some ".js") = ""
  /\ path.basename "js" (Some ".js") = "js"
  /\ path.basename "file.js" (Some ".ts") = "file.js"
  /\ path.basename "file" (Some ".js") = "file"
  /\ path.basename "file.js.old" (Some ".js.old") = "file"
  /\ path.basename "basename.ext//" None = "basename.ext"
  /\ path.basename "aaa/bbb" (Some "/bbb") = "bbb"
  /\ path.basename "aaa/bbb" (Some "a/bbb") = "bbb"
  /\ path.basename "aaa/bbb" (Some "bbb") = "bbb"
  /\ path.basename "aaa/bbb//" (Some "bbb") = "bbb"
  /\ path.basename "aaa/bbb" (Some "bb") = "b"
  /\ path.basename "aaa/bbb" (Some "b") = "bb"
  /\ path.basename "/aaa/" None = "aaa"
  /\ path.basename "//a" None = "a"
  /\ path.basename "a" (Some "a") = ""
  /\ path.basename "" None = "".
Proof. repeat split; reflexivity. Qed.

(** Node's own test expectations for [join] and [normalize]. *)
Example join_node_tests :
  path.join ["."; "x/b"; ".."; "/b/c.js"] = "x/b/c.js"
  /\ path.join []%list = "."
  /\ path.join ["/foo"; "../../../bar"] = "/bar"
  /\ path.join ["foo"; "../../../bar"] = "../../bar"
  /\ path.join ["foo/"; "../../../bar"] = "../../bar"
  /\ path.join ["foo/x"; "./bar"] = "foo/x/bar"
  /\ path.join [""; "/foo"] = "/foo"
  /\ path.join [" "; "foo"] = " /foo"
  /\ path.join ["/"; "//foo"] = "/foo"
  /\ path.join ["./"] = "./"
  /\ path.join ["."; "./"] = "./"
  /\ path.normalize "./fixtures///b/../b/c.js" = "fixtures/b/c.js"
  /\ path.normalize "/foo/../../../bar" = "/bar"
  /\ path.normalize "a//b//../b" = "a/b"
  /\ path.normalize "a//b//./c" = "a/b/c"
  /\ path.normalize "a//b//." = "a/b"
  /\ path.normalize "/a/b/c/../../../x/y/z" = "/x/y/z"
  /\ path.normalize "///..//./foo/.//bar" = "/foo/bar"
  /\ path.normalize "bar/foo../../" = "bar/"
  /\ path.normalize "bar/foo../.." = "bar"
  /\ path.normalize "bar/foo../../baz" = "bar/baz"
  /\ path.normalize "bar/foo../" = "bar/foo../"
  /\ path.normalize "bar/foo.." = "bar/foo.."
  /\ path.normalize "../foo../../../bar" = "../../bar"
  /\ path.normalize "../.../.././.../../../bar" = "../../bar"
  /\ path.normalize "../../../foo/../../../bar" = "../../../../../bar"
  /\ path.normalize "../foobar/barfoo/foo/../../../bar/../../" = "../../".
Proof. repeat split; reflexivity. Qed.

(* ===================================================================== *)
(** ** Lemmas on strings *)
(* ===================================================================== *)

Section StringFacts.

Lemma allChars_app (f : ascii -> bool) (a b : string) :
  allChars f (a ++ b) = allChars f a && allChars f b.
Proof.
  induction a as [|c a IH]; simpl.
  - reflexivity.
  - rewrite IH. apply andb_assoc.
Qed.

Lemma allChars_weaken (f g : ascii -> bool) (s : string) :
  (forall c, f c = true -> g c = true) ->
  allChars f s = true -> allChars g s = true.
Proof.
  intros Hfg. induction s as [|c s IH]; simpl; [reflexivity|].
  intros H. apply andb_true_iff in H as [Hc Hs].
  rewrite (Hfg c Hc). simpl. exact (IH Hs).
Qed.

Lemma prefix_longer (s : string) : String.prefix (s ++ ".") s = false.
Proof.
  induction s as [|c s IH]; simpl.
  - reflexivity.
  - destruct (ascii_dec c c); [exact IH | reflexivity].
Qed.

Lemma prefix_cons_same (a : ascii) (k t : string) :
  String.prefix (String a k) (String a t) = String.prefix k t.
Proof.
  cbn [String.prefix]. destruct (ascii_dec a a); [reflexivity | contradiction].
Qed.

(** A string that does not start with an underscore starts with no run of
    underscores. *)
Lemma prefix_underscore_head (c : ascii) (k s : string) :
  Ascii.eqb c "_"%char = false ->
  String.prefix (String "_"%char k) (String c s) = false.
Proof.
  intros Hc. cbn [String.prefix].
  destruct (ascii_dec "_"%char c) as [E|_]; [|reflexivity].
  subst c. discriminate Hc.
Qed.

Lemma prefix_escape_head (c : ascii) (s : string) :
  Ascii.eqb c "_"%char = false -> String.prefix "___" (String c s) = false.
Proof. apply prefix_underscore_head. Qed.

Lemma isAlphanumeric_not_underscore (c : ascii) :
  isAlphanumeric c = true -> Ascii.eqb c "_"%char = false.
Proof.
  intros H. destruct (Ascii.eqb_spec c "_"%char) as [E|_]; [|reflexivity].
  subst c. discriminate H.
Qed.

Lemma alphanumericSegment_noUnderscore (seg : string) :
  alphanumericSegment seg -> noUnderscore seg.
Proof.
  apply allChars_weaken. intros c Hc.
  rewrite (isAlphanumeric_not_underscore c Hc). reflexivity.
Qed.

Lemma identifierOfSegments_noUnderscore (segments : list string) :
  Forall alphanumericSegment segments ->
  noUnderscore (identifierOfSegments segments).
Proof.
  unfold identifierOfSegments, noUnderscore.
  induction 1 as [|seg segs Hseg Hsegs IH]; [reflexivity|].
  destruct segs as [|seg' segs'].
  - simpl. apply alphanumericSegment_noUnderscore, Hseg.
  - change (String.concat "." (seg :: seg' :: segs'))
      with (seg ++ "." ++ String.concat "." (seg' :: segs')).
    rewrite !allChars_app, IH.
    rewrite (alphanumericSegment_noUnderscore seg Hseg). reflexivity.
Qed.

End StringFacts.

(* ===================================================================== *)
(** ** Lemmas on the two flattenings *)
(* ===================================================================== *)

Section Flattening.

Lemma replaceDots_noDot (replacement s : string) :
  noDot s -> JsString.replaceDots replacement s = s.
Proof.
  unfold noDot. induction s as [|c s IH]; simpl; [reflexivity|].
  intros H. apply andb_true_iff in H as [Hc Hs].
  apply negb_true_iff in Hc. rewrite Hc, (IH Hs). reflexivity.
Qed.

Lemma flattenForPage_dot (s : string) :
  flattenForPage (String "."%char s) = "___" ++ flattenForPage s.
Proof. reflexivity. Qed.

Lemma flattenForPage_other (c : ascii) (s : string) :
  Ascii.eqb c "."%char = false ->
  flattenForPage (String c s) = String c (flattenForPage s).
Proof. intros H. unfold flattenForPage. simpl. rewrite H. reflexivity. Qed.

Lemma countOccurrences_escape (t : string) :
  countOccurrencesFrom "___" 0 ("___" ++ t)
  = S (countOccurrencesFrom "___" 0 t).
Proof. destruct t; reflexivity. Qed.

Lemma unflatten_escape (t : string) :
  unflattenFrom 0 ("___" ++ t) = String "."%char (unflattenFrom 0 t).
Proof. destruct t; reflexivity. Qed.

Lemma flattenForPage_has_no_dot (s : string) :
  countChar "."%char (flattenForPage s) = 0%nat.
Proof.
  induction s as [|c s IH]; [reflexivity|].
  destruct (Ascii.eqb c "."%char) eqn:Hc.
  - apply Ascii.eqb_eq in Hc. subst c.
    rewrite flattenForPage_dot. simpl. exact IH.
  - rewrite (flattenForPage_other c s Hc). simpl. rewrite Hc. exact IH.
Qed.

Lemma flattenForPage_occurrences (s : string) :
  noUnderscore s ->
  countOccurrences "___" (flattenForPage s) = countChar "."%char s.
Proof.
  unfold noUnderscore, countOccurrences.
  induction s as [|c s IH]; [reflexivity|].
  simpl allChars. intros H. apply andb_true_iff in H as [Hc Hs].
  apply negb_true_iff in Hc.
  destruct (Ascii.eqb c "."%char) eqn:Hd.
  - apply Ascii.eqb_eq in Hd. subst c.
    rewrite flattenForPage_dot, countOccurrences_escape, (IH Hs).
    reflexivity.
  - rewrite (flattenForPage_other c s Hd).
    cbn [countOccurrencesFrom countChar].
    rewrite (prefix_escape_head c _ Hc), Hd. simpl. exact (IH Hs).
Qed.

Lemma countPositions_escape_end :
  countPositions "___" ("___" ++ "") = 1%nat.
Proof. reflexivity. Qed.

Lemma countPositions_escape (c : ascii) (t : string) :
  Ascii.eqb c "_"%char = false ->
  countPositions "___" ("___" ++ String c t)
  = S (countPositions "___" (String c t)).
Proof.
  intros Hc.
  change ("___" ++ String c t)
    with (String "_"%char (String "_"%char (String "_"%char (String c t)))).
  set (rest := String c t).
  cbn [countPositions]. subst rest.
  rewrite !prefix_cons_same, !(prefix_underscore_head c _ _ Hc).
  reflexivity.
Qed.

Lemma flattenForPage_positions (s : string) :
  noUnderscore s -> noAdjacentDots s ->
  countPositions "___" (flattenForPage s) = countChar "."%char s.
Proof.
  unfold noUnderscore, noAdjacentDots.
  induction s as [|c s IH]; [reflexivity|].
  cbn [allChars adjacentDotFree]. intros Hu Ha.
  apply andb_true_iff in Hu as [Hc Hs]. apply negb_true_iff in Hc.
  apply andb_true_iff in Ha as [Hhead Ha]. apply negb_true_iff in Hhead.
  specialize (IH Hs Ha).
  destruct (Ascii.eqb c "."%char) eqn:Hd.
  - apply Ascii.eqb_eq in Hd. subst c. rewrite flattenForPage_dot.
    cbn [countChar]. change (Ascii.eqb "." ".") with true. cbn [andb] in Hhead.
    destruct s as [|c' s'].
    + reflexivity.
    + cbn [allChars] in Hs. apply andb_true_iff in Hs as [Hc' _].
      apply negb_true_iff in Hc'.
      rewrite (flattenForPage_other c' s' Hhead) in *.
      rewrite (countPositions_escape c' _ Hc'), IH. reflexivity.
  - rewrite (flattenForPage_other c s Hd).
    cbn [countPositions countChar].
    rewrite (prefix_escape_head c _ Hc), Hd. exact IH.
Qed.

Lemma unflattenPage_flattenForPage (s : string) :
  noUnderscore s -> unflattenPage (flattenForPage s) = s.
Proof.
  unfold noUnderscore, unflattenPage.
  induction s as [|c s IH]; [reflexivity|].
  simpl allChars. intros H. apply andb_true_iff in H as [Hc Hs].
  apply negb_true_iff in Hc.
  destruct (Ascii.eqb c "."%char) eqn:Hd.
  - apply Ascii.eqb_eq in Hd. subst c.
    rewrite flattenForPage_dot, unflatten_escape, (IH Hs). reflexivity.
  - rewrite (flattenForPage_other c s Hd).
    cbn [unflattenFrom].
    rewrite (prefix_escape_head c _ Hc), (IH Hs). reflexivity.
Qed.

End Flattening.

(* ===================================================================== *)
(** ** What [path.basename] computes on a path without trailing separator *)
(* ===================================================================== *)

Section BasenameFacts.

Local Open Scope list_scope.

Local Abbreviation lenZ l := (Z.of_nat (List.length l)).

Lemma length_list_ascii_of_string (s : string) :
  List.length (list_ascii_of_string s) = String.length s.
Proof. induction s as [|c s IH]; simpl; congruence. Qed.

Lemma length_codesFromEnd (p : string) :
  lenZ (path.codesFromEnd p) = JsString.len p.
Proof.
  unfold path.codesFromEnd, JsString.len.
  rewrite length_rev, length_list_ascii_of_string. reflexivity.
Qed.

Lemma substring_list (s : string) :
  forall n m,
    list_ascii_of_string (String.substring n m s)
    = firstn m (skipn n (list_ascii_of_string s)).
Proof.
  induction s as [|c s IH]; intros n m.
  - destruct n, m; reflexivity.
  - destruct n as [|n]; simpl.
    + destruct m as [|m]; simpl; [reflexivity|].
      rewrite (IH 0%nat m). reflexivity.
    + apply IH.
Qed.

(** [slice] between two indices in range, on the codes read from the
    end. *)
Lemma slice_codes (p : string) (before mid after : list ascii) :
  path.codesFromEnd p = after ++ mid ++ before ->
  JsString.slice p (lenZ before) (Some (lenZ before + lenZ mid))
  = string_of_list_ascii (rev mid).
Proof.
  intros Hp.
  assert (Hl : list_ascii_of_string p = rev before ++ rev mid ++ rev after).
  { rewrite <- (rev_involutive (list_ascii_of_string p)).
    fold (path.codesFromEnd p). rewrite Hp, !rev_app_distr, app_assoc.
    reflexivity. }
  assert (Hn : JsString.len p = lenZ before + lenZ mid + lenZ after).
  { rewrite <- length_codesFromEnd, Hp, !length_app. lia. }
  unfold JsString.slice, JsString.clamp. rewrite Hn.
  destruct (Z.ltb_spec (lenZ before) 0) as [?|_]; [lia|].
  destruct (Z.ltb_spec (lenZ before + lenZ mid) 0) as [?|_]; [lia|].
  rewrite !Z.min_l by lia.
  replace (Z.max (lenZ before + lenZ mid - lenZ before) 0)
    with (lenZ mid) by lia.
  rewrite !Nat2Z.id.
  rewrite <- (string_of_list_ascii_of_string (String.substring _ _ p)).
  f_equal. rewrite substring_list, Hl.
  rewrite <- (length_rev before), skipn_app, skipn_all, Nat.sub_diag.
  simpl. rewrite <- (length_rev mid), firstn_app, firstn_all, Nat.sub_diag.
  simpl. apply app_nil_r.
Qed.

Lemma component_split (codes : list ascii) :
  codes = lastComponentRev codes ++ beforeComponentRev codes.
Proof.
  induction codes as [|c t IH]; simpl; [reflexivity|].
  destruct (path.isPosixPathSeparator c); simpl; congruence.
Qed.

Lemma component_length (codes : list ascii) :
  lenZ codes = lenZ (lastComponentRev codes) + lenZ (beforeComponentRev codes).
Proof. rewrite (component_split codes) at 1. rewrite length_app. lia. Qed.

(** Once the end of the component is known, the plain loop only looks
    for the separator that starts it. *)
Lemma plain_settled (codes : list ascii) :
  forall e, e <> -1 ->
    path.basenamePlainLoop codes (lenZ codes - 1) (path.mkPlain 0 e false)
    = path.mkPlain (lenZ (beforeComponentRev codes)) e false.
Proof.
  induction codes as [|c t IH]; intros e He; [reflexivity|].
  cbn [path.basenamePlainLoop beforeComponentRev].
  destruct (path.isPosixPathSeparator c).
  - cbn [path.p_matchedSlash negb path.p_end]. f_equal. lia.
  - cbn [path.p_end]. destruct (Z.eqb_spec e (-1)) as [?|_]; [contradiction|].
    replace (lenZ (c :: t) - 1 - 1) with (lenZ t - 1)
      by (cbn [List.length]; lia).
    apply IH, He.
Qed.

(** Likewise for the loop with a suffix, once the suffix is matched or
    has failed to match. *)
Lemma ext_settled (suffix : string) (codes : list ascii) :
  forall e f, f <> -1 ->
    path.basenameExtLoop suffix codes (lenZ codes - 1)
      (path.mkExt 0 e false (-1) f)
    = path.mkExt (lenZ (beforeComponentRev codes)) e false (-1) f.
Proof.
  induction codes as [|c t IH]; intros e f Hf; [reflexivity|].
  cbn [path.basenameExtLoop beforeComponentRev].
  destruct (path.isPosixPathSeparator c).
  - cbn [path.e_matchedSlash negb path.e_end path.e_extIdx
           path.e_firstNonSlashEnd].
    f_equal. lia.
  - unfold path.basenameExtStep. cbn [path.e_firstNonSlashEnd path.e_extIdx].
    destruct (Z.eqb_spec f (-1)) as [?|_]; [contradiction|].
    cbn [path.e_extIdx]. change (0 <=? -1) with false. cbv iota.
    replace (lenZ (c :: t) - 1 - 1) with (lenZ t - 1)
      by (cbn [List.length]; lia).
    apply IH, Hf.
Qed.

Lemma extStep_md_0 (c : ascii) (i : Z) :
  path.basenameExtStep ".md" c i (path.mkExt 0 (-1) true 2 (-1))
  = if Ascii.eqb c "d"%char
    then path.mkExt 0 (-1) false 1 (i + 1)
    else path.mkExt 0 (i + 1) false (-1) (i + 1).
Proof.
  unfold path.basenameExtStep, path.codeIs. simpl.
  destruct (Ascii.eqb c "d"%char); reflexivity.
Qed.

Lemma extStep_md_1 (c : ascii) (i f : Z) :
  f <> -1 ->
  path.basenameExtStep ".md" c i (path.mkExt 0 (-1) false 1 f)
  = if Ascii.eqb c "m"%char
    then path.mkExt 0 (-1) false 0 f
    else path.mkExt 0 f false (-1) f.
Proof.
  intros Hf. unfold path.basenameExtStep, path.codeIs.
  cbn [path.e_firstNonSlashEnd].
  destruct (Z.eqb_spec f (-1)) as [?|_]; [contradiction|]. simpl.
  destruct (Ascii.eqb c "m"%char); reflexivity.
Qed.

Lemma extStep_md_2 (c : ascii) (i f : Z) :
  f <> -1 ->
  path.basenameExtStep ".md" c i (path.mkExt 0 (-1) false 0 f)
  = if Ascii.eqb c "."%char
    then path.mkExt 0 i false (-1) f
    else path.mkExt 0 f false (-1) f.
Proof.
  intros Hf. unfold path.basenameExtStep, path.codeIs.
  cbn [path.e_firstNonSlashEnd].
  destruct (Z.eqb_spec f (-1)) as [?|_]; [contradiction|]. simpl.
  destruct (Ascii.eqb c "."%char); reflexivity.
Qed.

Lemma stripMdRev_suffix (rf : list ascii) :
  exists after, rf = after ++ stripMdRev rf.
Proof.
  destruct rf as [|c1 [|c2 [|c3 [|c4 rest]]]];
    try (exists []; reflexivity).
  unfold stripMdRev.
  destruct (Ascii.eqb c1 "d"%char && Ascii.eqb c2 "m"%char
            && Ascii.eqb c3 "."%char).
  - exists [c1; c2; c3]. reflexivity.
  - exists []. reflexivity.
Qed.

Lemma stripMdRev_short (rf : list ascii) :
  (List.length rf <= 3)%nat -> stripMdRev rf = rf.
Proof.
  destruct rf as [|c1 [|c2 [|c3 [|c4 rest]]]]; try reflexivity.
  simpl. lia.
Qed.

Lemma stripMdRev_not_d (c1 : ascii) (rest : list ascii) :
  Ascii.eqb c1 "d"%char = false -> stripMdRev (c1 :: rest) = c1 :: rest.
Proof.
  intros H. destruct rest as [|c2 [|c3 [|c4 rest]]]; try reflexivity.
  unfold stripMdRev. rewrite H. reflexivity.
Qed.

Lemma stripMdRev_not_m (c1 c2 : ascii) (rest : list ascii) :
  Ascii.eqb c2 "m"%char = false ->
  stripMdRev (c1 :: c2 :: rest) = c1 :: c2 :: rest.
Proof.
  intros H. destruct rest as [|c3 [|c4 rest]]; try reflexivity.
  unfold stripMdRev. rewrite H, andb_false_r. reflexivity.
Qed.

Lemma stripMdRev_not_dot (c1 c2 c3 : ascii) (rest : list ascii) :
  Ascii.eqb c3 "."%char = false ->
  stripMdRev (c1 :: c2 :: c3 :: rest) = c1 :: c2 :: c3 :: rest.
Proof.
  intros H. destruct rest as [|c4 rest]; [reflexivity|].
  unfold stripMdRev. rewrite H, andb_false_r. reflexivity.
Qed.

Lemma stripMdRev_match (c1 c2 c3 c4 : ascii) (rest : list ascii) :
  Ascii.eqb c1 "d"%char = true -> Ascii.eqb c2 "m"%char = true ->
  Ascii.eqb c3 "."%char = true ->
  stripMdRev (c1 :: c2 :: c3 :: c4 :: rest) = c4 :: rest.
Proof. intros H1 H2 H3. unfold stripMdRev. rewrite H1, H2, H3. reflexivity. Qed.

Ltac reindex :=
  match goal with
  | |- context [path.basenameExtLoop _ ?t ?i _] =>
      replace i with (lenZ t - 1) by (cbn [List.length]; lia)
  end.

Ltac fields :=
  cbn [path.e_start path.e_end path.e_firstNonSlashEnd path.e_matchedSlash
         path.e_extIdx negb List.length] in *.

Ltac settle t :=
  pose proof (component_length t);
  unfold finalEnd; fields;
  repeat match goal with
         | |- context [Z.eqb ?a ?b] => destruct (Z.eqb_spec a b)
         end;
  try lia.

Lemma ext_loop_md (codes : list ascii) :
  match codes with [] => false | c :: _ => path.isPosixPathSeparator c end
  = false ->
  let st := path.basenameExtLoop ".md" codes (lenZ codes - 1)
              (path.mkExt 0 (-1) true 2 (-1)) in
  path.e_start st = lenZ (beforeComponentRev codes)
  /\ finalEnd st (lenZ codes)
     = lenZ (beforeComponentRev codes)
       + lenZ (stripMdRev (lastComponentRev codes)).
Proof.
  destruct codes as [|c1 t1]; intros H1; [split; reflexivity|].
  cbn [path.basenameExtLoop lastComponentRev beforeComponentRev].
  rewrite H1, extStep_md_0.
  assert (HL : lenZ (c1 :: t1) - 1 + 1 <> -1) by lia.
  destruct (Ascii.eqb c1 "d"%char) eqn:E1.
  2:{ (* the last character is not [d] *)
    reindex. rewrite ext_settled by exact HL.
    rewrite (stripMdRev_not_d _ _ E1). split; [reflexivity|]. settle t1. }
  destruct t1 as [|c2 t2]; [split; reflexivity|].
  cbn [path.basenameExtLoop lastComponentRev beforeComponentRev].
  destruct (path.isPosixPathSeparator c2) eqn:H2.
  { (* the component is [d] *)
    split; [fields; lia|].
    rewrite stripMdRev_short by (simpl; lia). settle t2. }
  rewrite extStep_md_1 by exact HL.
  destruct (Ascii.eqb c2 "m"%char) eqn:E2.
  2:{ (* the component ends in [d] without [m] before it *)
    reindex. rewrite ext_settled by exact HL.
    rewrite (stripMdRev_not_m _ _ _ E2). split; [reflexivity|]. settle t2. }
  destruct t2 as [|c3 t3]; [split; reflexivity|].
  cbn [path.basenameExtLoop lastComponentRev beforeComponentRev].
  destruct (path.isPosixPathSeparator c3) eqn:H3.
  { (* the component is [md] *)
    split; [fields; lia|].
    rewrite stripMdRev_short by (simpl; lia). settle t3. }
  rewrite extStep_md_2 by exact HL.
  destruct (Ascii.eqb c3 "."%char) eqn:E3.
  2:{ (* the component ends in [md] without [.] before it *)
    reindex. rewrite ext_settled by exact HL.
    rewrite (stripMdRev_not_dot _ _ _ _ E3). split; [reflexivity|].
    settle t3. }
  (* the component ends in [.md] *)
  reindex. rewrite ext_settled by exact HL.
  split; [reflexivity|].
  pose proof (component_length t3) as Hlen.
  destruct (lastComponentRev t3) as [|c4 rest] eqn:E4.
  - (* and is [.md] *)
    rewrite stripMdRev_short by (simpl; lia). settle t3.
  - rewrite (stripMdRev_match _ _ _ _ _ E1 E2 E3). settle t3.
Qed.

Lemma basenamePlain_noTrailing (p : string) :
  endsWithSlash p = false ->
  path.basenamePlain p
  = string_of_list_ascii (rev (lastComponentRev (path.codesFromEnd p))).
Proof.
  unfold endsWithSlash, path.basenamePlain.
  rewrite <- length_codesFromEnd.
  pose proof (slice_codes p) as Hslice.
  destruct (path.codesFromEnd p) as [|c t]; intros Hc; [reflexivity|].
  cbn [path.basenamePlainLoop lastComponentRev]. rewrite Hc.
  cbn [path.p_end path.p_start]. change (-1 =? -1) with true. cbv iota.
  replace (lenZ (c :: t) - 1 - 1) with (lenZ t - 1)
    by (cbn [List.length]; lia).
  rewrite plain_settled by lia. cbn [path.p_end path.p_start].
  destruct (Z.eqb_spec (lenZ (c :: t) - 1 + 1) (-1)) as [?|_]; [lia|].
  rewrite <- (Hslice (beforeComponentRev t) (c :: lastComponentRev t) []).
  - do 2 f_equal. pose proof (component_length t).
    cbn [List.length]. lia.
  - cbn [app]. f_equal. apply component_split.
Qed.

Lemma basenameExt_md_noTrailing (p : string) :
  endsWithSlash p = false -> p <> ".md"%string ->
  path.basenameExt p ".md"
  = string_of_list_ascii
      (rev (stripMdRev (lastComponentRev (path.codesFromEnd p)))).
Proof.
  unfold endsWithSlash, path.basenameExt. intros Hc Hp.
  destruct (String.eqb_spec ".md" p) as [E|_]; [congruence|].
  change (JsString.len ".md" - 1) with 2.
  rewrite <- length_codesFromEnd.
  destruct (ext_loop_md _ Hc) as [Hstart Hend].
  fold (finalEnd (path.basenameExtLoop ".md" (path.codesFromEnd p)
                    (lenZ (path.codesFromEnd p) - 1)
                    (path.mkExt 0 (-1) true 2 (-1)))
          (lenZ (path.codesFromEnd p))).
  cbv zeta in Hstart, Hend. rewrite Hstart, Hend.
  destruct (stripMdRev_suffix (lastComponentRev (path.codesFromEnd p)))
    as [after Hafter].
  apply (slice_codes p _ _ after).
  rewrite app_assoc, <- Hafter. apply component_split.
Qed.

Lemma stripMd_of_component (rf : list ascii) :
  stripMd (string_of_list_ascii (rev rf))
  = string_of_list_ascii (rev (stripMdRev rf)).
Proof.
  unfold stripMd.
  rewrite list_ascii_of_string_of_list_ascii, rev_involutive. reflexivity.
Qed.

(** On a path that does not end in a separator and is not [.md] itself,
    [basename(path, ".md")] is the last component without its
    extension. *)
Lemma basename_md_noTrailing (p : string) :
  endsWithSlash p = false -> p <> ".md"%string ->
  path.basename p (Some ".md"%string) = stripMd (path.basename p None).
Proof.
  intros Hc Hp. unfold path.basename.
  rewrite (basenamePlain_noTrailing p Hc), stripMd_of_component.
  change (0 <? JsString.len ".md") with true. cbn [andb].
  change (JsString.len ".md") with 3.
  destruct (Z.leb_spec 3 (JsString.len p)) as [_|Hshort].
  - apply basenameExt_md_noTrailing; assumption.
  - rewrite stripMdRev_short; [reflexivity|].
    pose proof (component_length (path.codesFromEnd p)) as Hlen.
    rewrite length_codesFromEnd in Hlen. lia.
Qed.

End BasenameFacts.

(* ===================================================================== *)
(** ** Counting the escape sequence in a page flattening *)
(* ===================================================================== *)

Section EscapeCounts.

Local Open Scope nat_scope.

Local Abbreviation scan s := (countOccurrencesFrom "___" 0 s).

Lemma prefix_empty (s : string) : String.prefix "" s = true.
Proof. destruct s; reflexivity. Qed.

Lemma scan_other (c : ascii) (r : string) :
  Ascii.eqb c "_"%char = false -> scan (String c r) = scan r.
Proof.
  intros Hc. cbn [countOccurrencesFrom].
  rewrite (prefix_escape_head c r Hc). reflexivity.
Qed.

Lemma scan_one (c : ascii) (r : string) :
  Ascii.eqb c "_"%char = false ->
  scan (String "_"%char (String c r)) = scan r.
Proof.
  intros Hc. cbn [countOccurrencesFrom].
  rewrite prefix_cons_same.
  repeat rewrite (prefix_underscore_head c _ r Hc). reflexivity.
Qed.

Lemma scan_two (c : ascii) (r : string) :
  Ascii.eqb c "_"%char = false ->
  scan (String "_"%char (String "_"%char (String c r))) = scan r.
Proof.
  intros Hc. cbn [countOccurrencesFrom].
  rewrite !prefix_cons_same.
  repeat rewrite (prefix_underscore_head c _ r Hc). reflexivity.
Qed.

(** The scan from the left finds one occurrence for each three underscores
    in a row. *)
Lemma scan_by_runs_bounded (n : nat) :
  forall s, String.length s <= n -> scan s = tripleRuns 0 s.
Proof.
  induction n as [|n IH]; intros s Hlen.
  - destruct s; [reflexivity | cbn [String.length] in Hlen; lia].
  - destruct s as [|c1 r1]; [reflexivity|].
    cbn [String.length] in Hlen.
    destruct (Ascii.eqb c1 "_"%char) eqn:E1.
    2:{ rewrite (scan_other c1 r1 E1). cbn [tripleRuns]. rewrite E1.
        apply IH. lia. }
    apply Ascii.eqb_eq in E1. subst c1.
    destruct r1 as [|c2 r2]; [reflexivity|].
    cbn [String.length] in Hlen.
    destruct (Ascii.eqb c2 "_"%char) eqn:E2.
    2:{ rewrite (scan_one c2 r2 E2). cbn [tripleRuns].
        change (Ascii.eqb "_" "_") with true. cbn [Nat.eqb]. rewrite E2.
        apply IH. lia. }
    apply Ascii.eqb_eq in E2. subst c2.
    destruct r2 as [|c3 r3]; [reflexivity|].
    cbn [String.length] in Hlen.
    destruct (Ascii.eqb c3 "_"%char) eqn:E3.
    2:{ rewrite (scan_two c3 r3 E3). cbn [tripleRuns].
        change (Ascii.eqb "_" "_") with true. cbn [Nat.eqb]. rewrite E3.
        apply IH. lia. }
    apply Ascii.eqb_eq in E3. subst c3.
    change (String "_"%char (String "_"%char (String "_"%char r3)))
      with ("___" ++ r3)%string.
    rewrite countOccurrences_escape.
    change (tripleRuns 0 ("___" ++ r3)) with (S (tripleRuns 0 r3)).
    f_equal. apply IH. lia.
Qed.

Lemma scan_by_runs (s : string) : countOccurrences "___" s = tripleRuns 0 s.
Proof. apply (scan_by_runs_bounded (String.length s)). lia. Qed.

Lemma tripleRuns_escape (pending : nat) (t : string) :
  pending <= 2 ->
  tripleRuns pending ("___" ++ t) = S (tripleRuns pending t).
Proof.
  intros Hp. destruct pending as [|[|[|k]]]; try reflexivity. lia.
Qed.

(** In a page flattening each dot gives one occurrence, and the
    underscores of the identifier give one for each triple. *)
Lemma tripleRuns_flattenForPage (s : string) :
  forall pending, pending <= 2 ->
    tripleRuns pending (flattenForPage s)
    = countChar "."%char s + underscoreTriplesFrom pending s.
Proof.
  induction s as [|c s IH]; intros pending Hp; [reflexivity|].
  destruct (Ascii.eqb c "."%char) eqn:Hd.
  - apply Ascii.eqb_eq in Hd. subst c.
    rewrite flattenForPage_dot, (tripleRuns_escape pending _ Hp), (IH pending Hp).
    reflexivity.
  - rewrite (flattenForPage_other c s Hd).
    cbn [tripleRuns countChar underscoreTriplesFrom]. rewrite Hd.
    destruct (Ascii.eqb c "_"%char).
    + destruct (Nat.eqb_spec pending 2) as [E|N].
      * rewrite (IH 0) by lia. lia.
      * apply IH. lia.
    + apply IH. lia.
Qed.

Lemma flattenForPage_occurrences_exact (s : string) :
  countOccurrences "___" (flattenForPage s)
  = countChar "."%char s + underscoreTriples s.
Proof.
  rewrite scan_by_runs. apply tripleRuns_flattenForPage. lia.
Qed.

Lemma underscoreTriples_noUnderscore (s : string) :
  noUnderscore s -> forall pending, underscoreTriplesFrom pending s = 0.
Proof.
  unfold noUnderscore. induction s as [|c s IH]; intros H pending;
    [reflexivity|].
  cbn [allChars] in H. apply andb_true_iff in H as [Hc Hs].
  apply negb_true_iff in Hc. cbn [underscoreTriplesFrom]. rewrite Hc.
  destruct (Ascii.eqb c "."%char); apply IH, Hs.
Qed.

(** How the page flattening of [s] begins, for runs of one to three
    underscores. *)
Lemma prefix_leadingUnderscores (k : nat) :
  forall run s,
    k <= 3 -> String.length run = k ->
    allChars (fun c => Ascii.eqb c "_"%char) run = true ->
    String.prefix run (flattenForPage s) = Nat.leb k (leadingUnderscores s).
Proof.
  induction k as [|k IH]; intros run s Hk Hlen Hrun.
  - destruct run; [|discriminate Hlen]. apply prefix_empty.
  - destruct run as [|u run]; [discriminate Hlen|].
    cbn [String.length] in Hlen. injection Hlen as Hlen.
    cbn [allChars] in Hrun. apply andb_true_iff in Hrun as [Hu Hrun].
    apply Ascii.eqb_eq in Hu. subst u.
    destruct s as [|c s]; [reflexivity|].
    destruct (Ascii.eqb c "."%char) eqn:Hd.
    + apply Ascii.eqb_eq in Hd. subst c. rewrite flattenForPage_dot.
      cbn [leadingUnderscores]. change (Ascii.eqb "." ".") with true.
      cbv iota.
      change ("___" ++ flattenForPage s)%string
        with (String "_"%char ("__" ++ flattenForPage s)%string).
      rewrite prefix_cons_same.
      destruct run as [|u1 run].
      { rewrite prefix_empty. subst k. reflexivity. }
      cbn [allChars] in Hrun. apply andb_true_iff in Hrun as [Hu1 Hrun].
      apply Ascii.eqb_eq in Hu1. subst u1.
      change ("__" ++ flattenForPage s)%string
        with (String "_"%char ("_" ++ flattenForPage s)%string).
      rewrite prefix_cons_same.
      destruct run as [|u2 run].
      { rewrite prefix_empty. subst k. reflexivity. }
      cbn [allChars] in Hrun. apply andb_true_iff in Hrun as [Hu2 Hrun].
      apply Ascii.eqb_eq in Hu2. subst u2.
      change ("_" ++ flattenForPage s)%string
        with (String "_"%char (flattenForPage s)).
      rewrite prefix_cons_same.
      destruct run as [|u3 run].
      { rewrite prefix_empty. subst k. reflexivity. }
      cbn [String.length] in Hlen. lia.
    + rewrite (flattenForPage_other c s Hd). cbn [leadingUnderscores].
      rewrite Hd. destruct (Ascii.eqb c "_"%char) eqn:Hc.
      * apply Ascii.eqb_eq in Hc. subst c. rewrite prefix_cons_same.
        rewrite (IH run s) by (lia || assumption || reflexivity).
        reflexivity.
      * apply prefix_underscore_head, Hc.
Qed.

Lemma prefix1_flattenForPage (s : string) :
  String.prefix "_" (flattenForPage s) = Nat.leb 1 (leadingUnderscores s).
Proof. apply prefix_leadingUnderscores; (lia || reflexivity). Qed.

Lemma prefix2_flattenForPage (s : string) :
  String.prefix "__" (flattenForPage s) = Nat.leb 2 (leadingUnderscores s).
Proof. apply prefix_leadingUnderscores; (lia || reflexivity). Qed.

Lemma flattenForPage_positions_exact (s : string) :
  countPositions "___" (flattenForPage s)
  = countChar "."%char s + overlapExcess s.
Proof.
  induction s as [|c s IH]; [reflexivity|].
  destruct (Ascii.eqb c "."%char) eqn:Hd.
  - apply Ascii.eqb_eq in Hd. subst c. rewrite flattenForPage_dot.
    change ("___" ++ flattenForPage s)%string
      with (String "_"%char (String "_"%char (String "_"%char
              (flattenForPage s)))).
    set (flat := flattenForPage s) in *.
    cbn [countPositions countChar overlapExcess]. subst flat.
    change (Ascii.eqb "." ".") with true. cbv iota.
    rewrite !prefix_cons_same, prefix_empty.
    rewrite prefix1_flattenForPage, prefix2_flattenForPage, IH. lia.
  - rewrite (flattenForPage_other c s Hd).
    cbn [countPositions countChar overlapExcess]. rewrite Hd.
    destruct (Ascii.eqb c "_"%char) eqn:Hc.
    + apply Ascii.eqb_eq in Hc. subst c.
      rewrite prefix_cons_same, prefix2_flattenForPage, IH. lia.
    + rewrite (prefix_escape_head c _ Hc), IH. lia.
Qed.

End EscapeCounts.

(* ===================================================================== *)
(** ** The journal gate and the dispatcher *)
(* ===================================================================== *)

Section Dispatcher.

Variable this : Vault.

(** Whenever the classifier answers with a truthy value, a journal root
    is configured. *)
Lemma gate_implies_configured (dendronNodePath : string) :
  truthy (isDendronJournalNode this dendronNodePath) = true ->
  exists hierarchy, dendronJournalHierarchy this = Some hierarchy.
Proof.
  unfold isDendronJournalNode.
  destruct (dendronJournalHierarchy this) as [hierarchy|].
  - intros _. exists hierarchy. reflexivity.
  - discriminate.
Qed.

(** Behind the gate the journal-path renderer returns. *)
Lemma gate_excludes_error (dendronNodePath : string) :
  truthy (isDendronJournalNode this dendronNodePath) = true ->
  exists dest, logseqJournalPath this dendronNodePath = Return dest.
Proof.
  intros Hgate.
  destruct (gate_implies_configured _ Hgate) as [hierarchy Hcfg].
  unfold logseqJournalPath. rewrite Hcfg. eexists. reflexivity.
Qed.

(** All three renderers read the source path through
    [dendronNodeHierarchyPosition] only. *)
Lemma logseqDestPath_of_position (p1 p2 : string) :
  dendronNodeHierarchyPosition this p1 = dendronNodeHierarchyPosition this p2 ->
  logseqDestPath this p1 = logseqDestPath this p2.
Proof.
  intros H.
  unfold logseqDestPath, isDendronJournalNode, logseqJournalPath,
    logseqPagePath.
  rewrite H. reflexivity.
Qed.

End Dispatcher.

(* ===================================================================== *)
(** ** The properties of the specification *)
(* ===================================================================== *)

(** C1. With journal root ["daily"] and destination root ["/g"], the source
    path ["/v/daily.2024.01.15.md"] has the identifier ["daily.2024.01.15"],
    is a journal member, and maps to ["/g/journals/2024_01_15.md"]: the
    root and one delimiter are cut off (leaving ["2024.01.15"]) and each
    remaining dot becomes one underscore. *)
Theorem journal_scenario (source : string) :
  let vault := mkVault source "/g" (Some "daily") in
  let node := "/v/daily.2024.01.15.md" in
  dendronNodeHierarchyPosition vault node = "daily.2024.01.15"
  /\ isDendronJournalNode vault node = boolean true
  /\ JsString.slice "daily.2024.01.15" (JsString.len "daily" + 1) None
     = "2024.01.15"
  /\ flattenForJournalSuffix "daily.2024.01.15" "daily" = "2024_01_15"
  /\ logseqDestPath vault node = Return "/g/journals/2024_01_15.md".
Proof. repeat split; reflexivity. Qed.

(** C2. With the same binding, the source path
    ["/v/projects.alpha.notes.md"] has the identifier
    ["projects.alpha.notes"], is not a journal member, and maps to
    ["/g/pages/projects___alpha___notes.md"]: every dot of the whole
    identifier becomes three underscores. *)
Theorem page_scenario (source : string) :
  let vault := mkVault source "/g" (Some "daily") in
  let node := "/v/projects.alpha.notes.md" in
  dendronNodeHierarchyPosition vault node = "projects.alpha.notes"
  /\ isDendronJournalNode vault node = boolean false
  /\ flattenForPage "projects.alpha.notes" = "projects___alpha___notes"
  /\ logseqDestPath vault node = Return "/g/pages/projects___alpha___notes.md".
Proof. repeat split; reflexivity. Qed.

(** C3, as the code has it.  When no journal root is configured the
    membership test returns [undefined] for every source path, without
    reading the path and without throwing; [undefined] is falsy, so the
    dispatcher renders the page path. *)
Theorem unconfigured_root_is_undefined (vault : Vault) (node : string) :
  dendronJournalHierarchy vault = None ->
  isDendronJournalNode vault node = undefined
  /\ truthy (isDendronJournalNode vault node) = false
  /\ logseqDestPath vault node = Return (logseqPagePath vault node).
Proof.
  intros Hcfg. unfold logseqDestPath, isDendronJournalNode. rewrite Hcfg.
  repeat split; reflexivity.
Qed.

Lemma unconfigured_root_is_undefined_witness :
  dendronJournalHierarchy plainVault = None
  /\ isDendronJournalNode plainVault "/v/daily.2024.01.15.md" = undefined
  /\ logseqDestPath plainVault "/v/daily.2024.01.15.md"
     = Return "/g/pages/daily___2024___01___15.md".
Proof.
  split; [reflexivity|].
  destruct (unconfigured_root_is_undefined plainVault
              "/v/daily.2024.01.15.md" eq_refl) as [Hu [_ Hd]].
  split; [exact Hu | exact Hd].
Defined.

(** C3, as stated, fails: without a journal root the test does not return
    the boolean [false]. *)
Lemma unconfigured_root_is_not_false :
  dendronJournalHierarchy plainVault = None
  /\ isDendronJournalNode plainVault "/v/daily.2024.01.15.md" <> boolean false.
Proof. split; [reflexivity | discriminate]. Qed.

(** C4. An identifier equal to the configured journal root is not a
    journal member and is rendered as a page; with journal root ["daily"],
    ["/v/daily.md"] maps to ["/g/pages/daily.md"]. *)
Theorem root_itself_is_a_page :
  (forall (vault : Vault) (root node : string),
      dendronJournalHierarchy vault = Some root ->
      dendronNodeHierarchyPosition vault node = root ->
      isDendronJournalNode vault node = boolean false
      /\ logseqDestPath vault node = Return (logseqPagePath vault node))
  /\ (forall source : string,
        logseqDestPath (mkVault source "/g" (Some "daily")) "/v/daily.md"
        = Return "/g/pages/daily.md").
Proof.
  split; [|reflexivity].
  intros vault root node Hcfg Hpos.
  assert (Hnode : isDendronJournalNode vault node = boolean false).
  { unfold isDendronJournalNode, JsString.startsWith.
    rewrite Hcfg, Hpos, prefix_longer. reflexivity. }
  split; [exact Hnode|].
  unfold logseqDestPath. rewrite Hnode. reflexivity.
Qed.

Lemma root_itself_is_a_page_witness :
  dendronJournalHierarchy dailyVault = Some "daily"
  /\ dendronNodeHierarchyPosition dailyVault "/v/daily.md" = "daily"
  /\ isDendronJournalNode dailyVault "/v/daily.md" = boolean false.
Proof.
  split; [reflexivity|]. split; [reflexivity|].
  exact (proj1 (proj1 root_itself_is_a_page dailyVault "daily" "/v/daily.md"
                  eq_refl eq_refl)).
Defined.

(** C5, as the code has it.  For every identifier that contains exactly
    [n] dots, the page flattening contains no dot and [n + t] occurrences of
    ["___"], counted from the left without overlap, [t] being the number of
    underscore triples of the identifier itself: one for every three
    underscores in each maximal stretch of underscores and dots.  So it
    contains exactly [n] occurrences if and only if no such stretch holds
    three underscores.  Counted by starting position, the occurrences are
    [n] and the starts of ["___"] that are not the first character of a
    replaced dot. *)
Theorem page_flattening_counts (identifier : string) (n : nat) :
  countChar "."%char identifier = n ->
  countChar "."%char (flattenForPage identifier) = 0%nat
  /\ countOccurrences "___" (flattenForPage identifier)
     = (n + underscoreTriples identifier)%nat
  /\ (countOccurrences "___" (flattenForPage identifier) = n
      <-> underscoreTriples identifier = 0%nat)
  /\ countPositions "___" (flattenForPage identifier)
     = (n + overlapExcess identifier)%nat.
Proof.
  intros Hn. subst n.
  pose proof (flattenForPage_occurrences_exact identifier) as Hocc.
  split; [apply flattenForPage_has_no_dot|].
  split; [exact Hocc|].
  split; [rewrite Hocc; lia|].
  apply flattenForPage_positions_exact.
Qed.

Lemma page_flattening_counts_witness :
  countChar "."%char "my_note.sub" = 1%nat
  /\ underscoreTriples "my_note.sub" = 0%nat
  /\ countOccurrences "___" (flattenForPage "my_note.sub") = 1%nat.
Proof.
  destruct (page_flattening_counts "my_note.sub" 1 eq_refl)
    as (_ & _ & Hiff & _).
  split; [reflexivity|]. split; [reflexivity|].
  exact (proj2 Hiff eq_refl).
Defined.

(** C5, as stated, fails: ["a___b"] has no dot, yet its page flattening
    contains the escape sequence once, however occurrences are counted. *)
Lemma page_flattening_counts_fail :
  countChar "."%char "a___b" = 0%nat
  /\ countOccurrences "___" (flattenForPage "a___b") = 1%nat
  /\ countPositions "___" (flattenForPage "a___b") = 1%nat
  /\ countOccurrences "___" (flattenForPage "a___b")
     <> countChar "."%char "a___b".
Proof. repeat split; try reflexivity. discriminate. Qed.

(** C6. The destination-path computation returns a path for every binding
    and every source path: the dispatcher calls the journal-path renderer
    only behind the classifier gate, where its configuration-error branch
    cannot be taken. *)
Theorem logseqDestPath_total (vault : Vault) (node : string) :
  exists dest, logseqDestPath vault node = Return dest.
Proof.
  unfold logseqDestPath.
  destruct (truthy (isDendronJournalNode vault node)) eqn:Hgate.
  - apply gate_excludes_error, Hgate.
  - eexists. reflexivity.
Qed.

(** C7. Called directly on a binding without journal root, the
    journal-path renderer throws its configuration error and returns no
    path. *)
Theorem logseqJournalPath_unconfigured (vault : Vault) (node : string) :
  dendronJournalHierarchy vault = None ->
  logseqJournalPath vault node
  = Throw "can't template journal path without Dendron hierarchy location"
  /\ forall dest, logseqJournalPath vault node <> Return dest.
Proof.
  intros Hcfg. unfold logseqJournalPath. rewrite Hcfg.
  split; [reflexivity | discriminate].
Qed.

Lemma logseqJournalPath_unconfigured_witness :
  dendronJournalHierarchy plainVault = None
  /\ logseqJournalPath plainVault "/v/daily.2024.01.15.md"
     = Throw "can't template journal path without Dendron hierarchy location".
Proof.
  split; [reflexivity|].
  exact (proj1 (logseqJournalPath_unconfigured plainVault
                  "/v/daily.2024.01.15.md" eq_refl)).
Defined.

(** C8. For every identifier whose segments are built only from
    alphanumeric characters, flattening it for a page and then replacing
    every ["___"] by ["."] gives the identifier back. *)
Theorem page_flattening_round_trip (segments : list string) :
  Forall alphanumericSegment segments ->
  unflattenPage (flattenForPage (identifierOfSegments segments))
  = identifierOfSegments segments.
Proof.
  intros Hsegs. apply unflattenPage_flattenForPage.
  apply identifierOfSegments_noUnderscore, Hsegs.
Qed.

Lemma page_flattening_round_trip_witness :
  Forall alphanumericSegment ["projects"; "alpha"; "notes"]
  /\ unflattenPage (flattenForPage "projects.alpha.notes")
     = "projects.alpha.notes".
Proof.
  assert (H : Forall alphanumericSegment ["projects"; "alpha"; "notes"])
    by (repeat constructor).
  split; [exact H|].
  exact (page_flattening_round_trip ["projects"; "alpha"; "notes"] H).
Defined.

(** C9. On an identifier without dot the page flattening is the
    identity. *)
Theorem page_flattening_identity (identifier : string) :
  noDot identifier -> flattenForPage identifier = identifier.
Proof. apply replaceDots_noDot. Qed.

Lemma page_flattening_identity_witness :
  noDot "daily" /\ flattenForPage "daily" = "daily".
Proof.
  split; [reflexivity|].
  exact (page_flattening_identity "daily" eq_refl).
Defined.

(** C10, as the code has it.  For every binding and every two source paths
    that do not end in a path separator and are not the bare name [.md],
    equal base names give equal results of the destination-path
    computation, whatever the directories. *)
Theorem dest_depends_on_base_name (vault : Vault) (p1 p2 : string) :
  endsWithSlash p1 = false -> endsWithSlash p2 = false ->
  p1 <> ".md" -> p2 <> ".md" ->
  path.basename p1 None = path.basename p2 None ->
  logseqDestPath vault p1 = logseqDestPath vault p2.
Proof.
  intros Hs1 Hs2 Hn1 Hn2 Hbase.
  apply logseqDestPath_of_position. unfold dendronNodeHierarchyPosition.
  rewrite (basename_md_noTrailing p1 Hs1 Hn1).
  rewrite (basename_md_noTrailing p2 Hs2 Hn2).
  rewrite Hbase. reflexivity.
Qed.

Lemma dest_depends_on_base_name_witness :
  path.basename "/v/daily.2024.01.15.md" None
  = path.basename "notes/old/daily.2024.01.15.md" None
  /\ logseqDestPath dailyVault "/v/daily.2024.01.15.md"
     = logseqDestPath dailyVault "notes/old/daily.2024.01.15.md".
Proof.
  split; [reflexivity|].
  apply (dest_depends_on_base_name dailyVault "/v/daily.2024.01.15.md"
           "notes/old/daily.2024.01.15.md");
    solve [reflexivity | discriminate].
Defined.

(** C10, as stated, fails: [".md"] and ["/v/.md"] have the same base name
    and different destinations, because [basename] answers the empty
    string when the whole path is the suffix. *)
Lemma dest_depends_on_base_name_fail :
  path.basename ".md" None = path.basename "/v/.md" None
  /\ logseqDestPath plainVault ".md" = Return "/g/pages/.md"
  /\ logseqDestPath plainVault "/v/.md" = Return "/g/pages/___md.md"
  /\ logseqDestPath plainVault ".md" <> logseqDestPath plainVault "/v/.md".
Proof. repeat split; try reflexivity. discriminate. Qed.

(** A trailing separator changes the result as well when the last
    component is a proper end of [.md]. *)
Example trailing_separator_changes_destination :
  path.basename "/v/md" None = path.basename "/v/md/" None
  /\ logseqDestPath plainVault "/v/md" = Return "/g/pages/md.md"
  /\ logseqDestPath plainVault "/v/md/" = Return "/g/pages/md/.md".
Proof. repeat split; reflexivity. Qed.

(* ===================================================================== *)
(** ** Further lemmas on strings *)
(* ===================================================================== *)

Section MoreStringFacts.

Lemma append_assoc (a b c : string) : (a ++ b) ++ c = a ++ b ++ c.
Proof. induction a as [|x a IH]; simpl; congruence. Qed.

Lemma append_nil_r (a : string) : a ++ "" = a.
Proof. induction a as [|x a IH]; simpl; congruence. Qed.

Lemma length_append (a b : string) :
  String.length (a ++ b) = (String.length a + String.length b)%nat.
Proof. induction a as [|x a IH]; simpl; congruence. Qed.

Lemma len_append (a b : string) :
  JsString.len (a ++ b) = JsString.len a + JsString.len b.
Proof. unfold JsString.len. rewrite length_append. lia. Qed.

Lemma append_cancel_l (a b c : string) : a ++ b = a ++ c -> b = c.
Proof. induction a as [|x a IH]; simpl; [auto|]. intros H. inversion H. auto. Qed.

Lemma list_ascii_of_string_app (a b : string) :
  list_ascii_of_string (a ++ b)
  = (list_ascii_of_string a ++ list_ascii_of_string b)%list.
Proof. induction a as [|x a IH]; simpl; congruence. Qed.

Lemma string_of_list_ascii_app (a b : list ascii) :
  string_of_list_ascii (a ++ b)%list
  = string_of_list_ascii a ++ string_of_list_ascii b.
Proof. induction a as [|x a IH]; simpl; congruence. Qed.

Lemma append_cancel_r (a b c : string) : a ++ c = b ++ c -> a = b.
Proof.
  intros H.
  rewrite <- (string_of_list_ascii_of_string a).
  rewrite <- (string_of_list_ascii_of_string b).
  f_equal. apply (app_inv_tail (list_ascii_of_string c)).
  rewrite <- !list_ascii_of_string_app. congruence.
Qed.

Lemma allChars_forallb (f : ascii -> bool) (s : string) :
  allChars f s = forallb f (list_ascii_of_string s).
Proof. induction s as [|c s IH]; simpl; congruence. Qed.

Lemma prefix_nil (s : string) : String.prefix "" s = true.
Proof. destruct s; reflexivity. Qed.

Lemma prefix_append (a rest : string) : String.prefix a (a ++ rest) = true.
Proof.
  induction a as [|x a IH]; [apply prefix_nil|].
  cbn [append]. rewrite prefix_cons_same. exact IH.
Qed.

Lemma prefix_split (a s : string) :
  String.prefix a s = true -> exists rest, s = a ++ rest.
Proof.
  revert s. induction a as [|x a IH]; intros s H.
  - exists s. reflexivity.
  - destruct s as [|y s]; [discriminate H|].
    cbn [String.prefix] in H. destruct (ascii_dec x y) as [E|_]; [|discriminate H].
    subst y. destruct (IH s H) as [rest Hrest]. exists rest.
    cbn [append]. congruence.
Qed.

(** [slice] from the end of a known prefix. *)
Lemma slice_after_prefix (a b : string) :
  JsString.slice (a ++ b) (JsString.len a) None = b.
Proof.
  unfold JsString.slice, JsString.clamp. rewrite len_append.
  assert (Ha : 0 <= JsString.len a) by (unfold JsString.len; lia).
  assert (Hb : 0 <= JsString.len b) by (unfold JsString.len; lia).
  destruct (Z.ltb_spec (JsString.len a) 0) as [?|_]; [lia|].
  rewrite Z.min_l by lia.
  replace (Z.max (JsString.len a + JsString.len b - JsString.len a) 0)
    with (JsString.len b) by lia.
  unfold JsString.len. rewrite !Nat2Z.id.
  rewrite <- (string_of_list_ascii_of_string (String.substring _ _ _)).
  rewrite substring_list, list_ascii_of_string_app.
  rewrite <- (length_list_ascii_of_string a), skipn_app, skipn_all,
    Nat.sub_diag.
  cbn [skipn app]. rewrite <- (length_list_ascii_of_string b), firstn_all.
  apply string_of_list_ascii_of_string.
Qed.

Lemma substring_empty (s : string) : forall n, String.substring n 0 s = "".
Proof.
  induction s as [|c s IH]; intros [|n]; try reflexivity. apply IH.
Qed.

(** [slice] from an index at or past the end. *)
Lemma slice_past_end (s : string) (k : Z) :
  JsString.len s <= k -> JsString.slice s k None = "".
Proof.
  intros Hk. unfold JsString.slice, JsString.clamp.
  assert (Hs : 0 <= JsString.len s) by (unfold JsString.len; lia).
  destruct (Z.ltb_spec k 0) as [?|_]; [lia|].
  rewrite Z.min_r by lia. rewrite Z.sub_diag. apply substring_empty.
Qed.

End MoreStringFacts.

(* ===================================================================== *)
(** ** Further lemmas on [Vault] *)
(* ===================================================================== *)

Section MoreBasenameFacts.

Local Open Scope list_scope.

Lemma forallb_rev_true (f : ascii -> bool) (l : list ascii) :
  forallb f l = true -> forallb f (rev l) = true.
Proof.
  intros H. apply forallb_forall. intros x Hx. apply in_rev in Hx.
  exact (proj1 (forallb_forall f l) H x Hx).
Qed.

Lemma lastComponentRev_app (a b : list ascii) :
  forallb (fun c => negb (path.isPosixPathSeparator c)) a = true ->
  match b with [] => true | c :: _ => path.isPosixPathSeparator c end = true ->
  lastComponentRev (a ++ b) = a.
Proof.
  intros Ha Hb. induction a as [|x a IH]; cbn [app lastComponentRev].
  - destruct b as [|c b]; [reflexivity|]. cbn [lastComponentRev].
    rewrite Hb. reflexivity.
  - cbn [forallb] in Ha. apply andb_true_iff in Ha as [Hx Ha].
    apply negb_true_iff in Hx. rewrite Hx, (IH Ha). reflexivity.
Qed.

Lemma lastComponentRev_noSlash (codes : list ascii) (c : ascii) :
  In c (lastComponentRev codes) -> path.isPosixPathSeparator c = false.
Proof.
  induction codes as [|x codes IH]; cbn [lastComponentRev]; [intros []|].
  destruct (path.isPosixPathSeparator x) eqn:Hx; [intros []|].
  intros [E|H]; [subst c; exact Hx | exact (IH H)].
Qed.

Lemma codesFromEnd_md (pre name : string) :
  path.codesFromEnd (pre ++ name ++ ".md")%string
  = "d"%char :: "m"%char :: "."%char
    :: rev (list_ascii_of_string name) ++ rev (list_ascii_of_string pre).
Proof.
  unfold path.codesFromEnd.
  rewrite !list_ascii_of_string_app, !rev_app_distr. reflexivity.
Qed.

(** The identifier of a file [name.md] below any directory prefix. *)
Lemma position_of_md (this : Vault) (pre name : string) :
  noSlash name -> name <> ""%string ->
  match rev (list_ascii_of_string pre) with
  | [] => true
  | c :: _ => path.isPosixPathSeparator c
  end = true ->
  dendronNodeHierarchyPosition this (pre ++ name ++ ".md")%string = name.
Proof.
  intros Hslash Hname Hpre. unfold dendronNodeHierarchyPosition.
  assert (Hcodes := codesFromEnd_md pre name).
  rewrite basename_md_noTrailing.
  - cbn [path.basename].
    rewrite basenamePlain_noTrailing by (unfold endsWithSlash; rewrite Hcodes;
                                          reflexivity).
    rewrite stripMd_of_component, Hcodes.
    change ("d"%char :: "m"%char :: "."%char
            :: rev (list_ascii_of_string name) ++ rev (list_ascii_of_string pre))
      with (("d"%char :: "m"%char :: "."%char
             :: rev (list_ascii_of_string name))
            ++ rev (list_ascii_of_string pre)).
    rewrite lastComponentRev_app; [| |exact Hpre].
    + destruct (rev (list_ascii_of_string name)) as [|c rest] eqn:Hrev.
      * exfalso. apply Hname.
        rewrite <- (string_of_list_ascii_of_string name).
        rewrite <- (rev_involutive (list_ascii_of_string name)), Hrev.
        reflexivity.
      * rewrite stripMdRev_match by reflexivity.
        rewrite <- Hrev, rev_involutive.
        apply string_of_list_ascii_of_string.
    + cbn [forallb]. change (path.isPosixPathSeparator "d") with false.
      change (path.isPosixPathSeparator "m") with false.
      change (path.isPosixPathSeparator ".") with false. cbn [negb andb].
      apply forallb_rev_true. unfold noSlash in Hslash.
      rewrite allChars_forallb in Hslash. exact Hslash.
  - unfold endsWithSlash. rewrite Hcodes. reflexivity.
  - intros E. apply (f_equal String.length) in E.
    rewrite !length_append in E. cbn [String.length] in E.
    destruct name; [contradiction | cbn [String.length] in E; lia].
Qed.

End MoreBasenameFacts.

Section MoreFlattening.

Lemma replaceDots_noDot_result (replacement s : string) :
  noDot replacement -> noDot (JsString.replaceDots replacement s).
Proof.
  unfold noDot. intros Hrep. induction s as [|c s IH]; [reflexivity|].
  cbn [JsString.replaceDots]. destruct (Ascii.eqb c "."%char) eqn:Hc.
  - rewrite allChars_app, Hrep, IH. reflexivity.
  - cbn [allChars]. rewrite Hc, IH. reflexivity.
Qed.

Lemma replaceDots_noSlash (replacement s : string) :
  noSlash replacement -> noSlash s ->
  noSlash (JsString.replaceDots replacement s).
Proof.
  unfold noSlash. intros Hrep. induction s as [|c s IH]; [reflexivity|].
  cbn [JsString.replaceDots allChars]. intros H.
  apply andb_true_iff in H as [Hc Hs].
  destruct (Ascii.eqb c "."%char).
  - rewrite allChars_app, Hrep, (IH Hs). reflexivity.
  - cbn [allChars]. rewrite Hc, (IH Hs). reflexivity.
Qed.

Lemma flattenForPage_nonempty (s : string) :
  s <> "" -> flattenForPage s <> "".
Proof.
  destruct s as [|c s]; [contradiction|]. intros _.
  unfold flattenForPage. cbn [JsString.replaceDots].
  destruct (Ascii.eqb c "."%char); discriminate.
Qed.

Lemma flattenForPage_length (s : string) :
  String.length (flattenForPage s)
  = (String.length s + 2 * countChar "."%char s)%nat.
Proof.
  induction s as [|c s IH]; [reflexivity|].
  destruct (Ascii.eqb c "."%char) eqn:Hc.
  - apply Ascii.eqb_eq in Hc. subst c. rewrite flattenForPage_dot.
    cbn [append String.length countChar]. change (Ascii.eqb "." ".") with true.
    rewrite IH. lia.
  - rewrite (flattenForPage_other c s Hc).
    cbn [String.length countChar]. rewrite Hc, IH. lia.
Qed.

Lemma replaceDots_underscore_length (s : string) :
  String.length (JsString.replaceDots "_" s) = String.length s.
Proof.
  induction s as [|c s IH]; [reflexivity|].
  cbn [JsString.replaceDots]. destruct (Ascii.eqb c "."%char);
    cbn [append String.length]; congruence.
Qed.

Lemma replaceDots_underscore_injective (a : string) :
  forall b, noUnderscore a -> noUnderscore b ->
    JsString.replaceDots "_" a = JsString.replaceDots "_" b -> a = b.
Proof.
  unfold noUnderscore.
  induction a as [|x a IH]; intros [|y b] Ha Hb H.
  - reflexivity.
  - cbn [JsString.replaceDots] in H.
    destruct (Ascii.eqb y "."%char); discriminate H.
  - cbn [JsString.replaceDots] in H.
    destruct (Ascii.eqb x "."%char); discriminate H.
  - cbn [allChars] in Ha, Hb.
    apply andb_true_iff in Ha as [Hx Ha]. apply negb_true_iff in Hx.
    apply andb_true_iff in Hb as [Hy Hb]. apply negb_true_iff in Hy.
    cbn [JsString.replaceDots] in H.
    destruct (Ascii.eqb_spec x "."%char) as [Ex|Nx];
      destruct (Ascii.eqb_spec y "."%char) as [Ey|Ny];
      cbn [append] in H; inversion H; subst.
    + f_equal. apply IH; assumption.
    + rewrite Ascii.eqb_refl in Hy. discriminate Hy.
    + rewrite Ascii.eqb_refl in Hx. discriminate Hx.
    + f_equal. apply IH; assumption.
Qed.

(** The cut of the journal flattening depends on the length of the root
    only. *)
Lemma flattenForJournalSuffix_cut (pre rest root : string) :
  String.length pre = S (String.length root) ->
  flattenForJournalSuffix (pre ++ rest) root = JsString.replaceDots "_" rest.
Proof.
  intros Hlen. unfold flattenForJournalSuffix.
  replace (JsString.len root + 1) with (JsString.len pre)
    by (unfold JsString.len; lia).
  rewrite slice_after_prefix. reflexivity.
Qed.

Lemma flattenForJournalSuffix_member (root rest : string) :
  flattenForJournalSuffix (root ++ "." ++ rest) root
  = JsString.replaceDots "_" rest.
Proof.
  rewrite <- append_assoc. apply flattenForJournalSuffix_cut.
  rewrite length_append. cbn [String.length]. lia.
Qed.

End MoreFlattening.

Section MoreVaultFacts.

Variable this : Vault.

Lemma position_noSlash (node : string) :
  endsWithSlash node = false ->
  noSlash (dendronNodeHierarchyPosition this node).
Proof.
  intros Hend. unfold dendronNodeHierarchyPosition.
  destruct (string_dec node ".md") as [E|N]; [subst node; reflexivity|].
  rewrite (basename_md_noTrailing node Hend N). cbn [path.basename].
  rewrite (basenamePlain_noTrailing node Hend), stripMd_of_component.
  unfold noSlash. rewrite allChars_forallb, list_ascii_of_string_of_list_ascii.
  apply forallb_rev_true, forallb_forall. intros c Hc.
  apply negb_true_iff.
  apply (lastComponentRev_noSlash (path.codesFromEnd node)).
  destruct (stripMdRev_suffix (lastComponentRev (path.codesFromEnd node)))
    as [after Hafter].
  rewrite Hafter. apply in_or_app. right. exact Hc.
Qed.

Lemma isDendronJournalNode_member (root rest node : string) :
  dendronJournalHierarchy this = Some root ->
  dendronNodeHierarchyPosition this node = root ++ "." ++ rest ->
  isDendronJournalNode this node = boolean true.
Proof.
  intros Hcfg Hpos. unfold isDendronJournalNode, JsString.startsWith.
  rewrite Hcfg, Hpos, <- append_assoc, prefix_append. reflexivity.
Qed.

End MoreVaultFacts.

(* ===================================================================== *)
(** ** What [path.join] computes on a root in normal form *)
(* ===================================================================== *)

Section NormalizeFacts.

Local Open Scope list_scope.

Local Abbreviation lenZ l := (Z.of_nat (List.length l)).

Variable p : string.
Variable allowAboveRoot : bool.

Lemma last_cons_default (xs : list ascii) :
  forall a d1 d2, last (a :: xs) d1 = last (a :: xs) d2.
Proof.
  induction xs as [|x xs IH]; intros a d1 d2; [reflexivity|].
  change (last (x :: xs) d1 = last (x :: xs) d2). apply IH.
Qed.

Lemma normalizeLoop_app (xs ys : list ascii) :
  forall i code st,
    path.normalizeLoop p allowAboveRoot (xs ++ ys) i code st
    = path.normalizeLoop p allowAboveRoot ys (i + lenZ xs) (last xs code)
        (normalizeRun p allowAboveRoot xs i st).
Proof.
  induction xs as [|x xs IH]; intros i code st.
  - cbn [app List.length normalizeRun last]. f_equal. lia.
  - cbn [app path.normalizeLoop normalizeRun]. rewrite IH.
    replace (i + 1 + lenZ xs) with (i + lenZ (x :: xs))
      by (cbn [List.length]; lia).
    f_equal. destruct xs as [|a xs]; [reflexivity|].
    change (last (x :: a :: xs) code) with (last (a :: xs) code).
    apply last_cons_default.
Qed.

(** Codes other than separators only move the counter of dots. *)
Lemma normalizeRun_segment (cs : list ascii) :
  forallb (fun c => negb (path.isPosixPathSeparator c)) cs = true ->
  forall i res lsl ls dots,
    normalizeRun p allowAboveRoot cs i (path.mkNorm res lsl ls dots)
    = path.mkNorm res lsl ls (dotsAfter dots cs).
Proof.
  induction cs as [|c cs IH]; intros Hcs i res lsl ls dots; [reflexivity|].
  cbn [forallb] in Hcs. apply andb_true_iff in Hcs as [Hc Hcs].
  apply negb_true_iff in Hc.
  cbn [normalizeRun dotsAfter]. unfold path.normalizeStep. rewrite Hc.
  cbn [path.n_dots path.n_res path.n_lastSegmentLength path.n_lastSlash].
  destruct (Ascii.eqb c path.CHAR_DOT && negb (dots =? -1)); apply IH, Hcs.
Qed.

Lemma dotsAfter_unset (cs : list ascii) : dotsAfter (-1) cs = -1.
Proof.
  induction cs as [|c cs IH]; [reflexivity|]. cbn [dotsAfter].
  change (-1 =? -1) with true. cbn [negb]. rewrite andb_false_r. exact IH.
Qed.

Lemma dotsAfter_count (cs : list ascii) :
  forall dots, 0 <= dots ->
    dotsAfter dots cs = -1
    \/ (dotsAfter dots cs = dots + lenZ cs
        /\ forallb (fun c => Ascii.eqb c path.CHAR_DOT) cs = true).
Proof.
  induction cs as [|c cs IH]; intros dots Hd.
  - right. cbn [dotsAfter List.length forallb]. split; [lia | reflexivity].
  - cbn [dotsAfter forallb].
    destruct (Z.eqb_spec dots (-1)) as [?|_]; [lia|].
    destruct (Ascii.eqb c path.CHAR_DOT); cbn [andb negb].
    + destruct (IH (dots + 1) ltac:(lia)) as [H|[H Hall]]; [left; exact H|].
      right. split; [cbn [List.length]; lia | exact Hall].
    + left. apply dotsAfter_unset.
Qed.

End NormalizeFacts.

Section PlainPaths.

Local Open Scope list_scope.

Local Abbreviation lenZ l := (Z.of_nat (List.length l)).

Lemma slice_middle (pre seg post : string) :
  JsString.slice (pre ++ seg ++ post)%string (JsString.len pre)
    (Some (JsString.len pre + JsString.len seg))
  = seg.
Proof.
  unfold JsString.slice, JsString.clamp. rewrite !len_append.
  assert (Ha : 0 <= JsString.len pre) by (unfold JsString.len; lia).
  assert (Hb : 0 <= JsString.len seg) by (unfold JsString.len; lia).
  assert (Hc : 0 <= JsString.len post) by (unfold JsString.len; lia).
  destruct (Z.ltb_spec (JsString.len pre) 0) as [?|_]; [lia|].
  destruct (Z.ltb_spec (JsString.len pre + JsString.len seg) 0) as [?|_];
    [lia|].
  rewrite !Z.min_l by lia.
  replace (Z.max (JsString.len pre + JsString.len seg - JsString.len pre) 0)
    with (JsString.len seg) by lia.
  unfold JsString.len. rewrite !Nat2Z.id.
  rewrite <- (string_of_list_ascii_of_string (String.substring _ _ _)).
  rewrite substring_list, !list_ascii_of_string_app.
  rewrite <- (length_list_ascii_of_string pre), skipn_app, skipn_all,
    Nat.sub_diag.
  cbn [skipn app].
  rewrite <- (length_list_ascii_of_string seg), firstn_app, firstn_all,
    Nat.sub_diag.
  cbn [firstn]. rewrite app_nil_r. apply string_of_list_ascii_of_string.
Qed.

Lemma noSlash_codes (seg : string) :
  noSlash seg ->
  forallb (fun c => negb (path.isPosixPathSeparator c))
    (list_ascii_of_string seg) = true.
Proof. unfold noSlash. rewrite allChars_forallb. auto. Qed.

Lemma plainSegment_dots (seg : string) :
  plainSegment seg ->
  dotsAfter 0 (list_ascii_of_string seg) <> 1
  /\ dotsAfter 0 (list_ascii_of_string seg) <> 2.
Proof.
  intros (Hne & _ & Hdot & Hdotdot).
  destruct (dotsAfter_count (list_ascii_of_string seg) 0 ltac:(lia))
    as [H|[H Hall]]; [rewrite H; lia|].
  rewrite H. rewrite <- (string_of_list_ascii_of_string seg) in Hdot, Hdotdot.
  destruct (list_ascii_of_string seg) as [|c1 [|c2 [|c3 cs]]];
    cbn [List.length forallb] in *.
  - lia.
  - apply andb_true_iff in Hall as [H1 _]. apply Ascii.eqb_eq in H1. subst c1.
    exfalso. apply Hdot. reflexivity.
  - apply andb_true_iff in Hall as [H1 Hall].
    apply andb_true_iff in Hall as [H2 _].
    apply Ascii.eqb_eq in H1, H2. subst c1 c2.
    exfalso. apply Hdotdot. reflexivity.
  - lia.
Qed.

(** At a separator that ends a kept segment, the segment is added to
    [res]. *)
Lemma normalizeSeparator_keep (p : string) (a : bool) (i : Z)
    (res : string) (lsl ls dots : Z) :
  ls <> i - 1 -> dots <> 1 -> dots <> 2 ->
  path.normalizeSeparator p a i (path.mkNorm res lsl ls dots)
  = path.mkNorm (appendSegment res (JsString.slice p (ls + 1) (Some i)))
      (i - ls - 1) i 0.
Proof.
  intros Hls H1 H2. unfold path.normalizeSeparator, appendSegment.
  cbn [path.n_res path.n_lastSlash path.n_dots path.n_lastSegmentLength].
  destruct (Z.eqb_spec ls (i - 1)) as [?|_]; [contradiction|].
  destruct (Z.eqb_spec dots 1) as [?|_]; [contradiction|].
  destruct (Z.eqb_spec dots 2) as [?|_]; [contradiction|].
  reflexivity.
Qed.

Lemma last_noSlash (seg : string) (code : ascii) :
  noSlash seg -> seg <> ""%string ->
  path.isPosixPathSeparator (last (list_ascii_of_string seg) code) = false.
Proof.
  intros Hs Hne. apply noSlash_codes in Hs.
  assert (Hin : In (last (list_ascii_of_string seg) code)
                  (list_ascii_of_string seg)).
  { destruct seg as [|c seg]; [contradiction|].
    cbn [list_ascii_of_string].
    destruct (exists_last (l := c :: list_ascii_of_string seg)
                ltac:(discriminate)) as (l' & x & E).
    rewrite E, last_last. apply in_or_app. right. left. reflexivity. }
  apply negb_true_iff. exact (proj1 (forallb_forall _ _) Hs _ Hin).
Qed.

(** The loop of [normalizeString] over plain segments, started just after
    a separator (or at the start of the path): every segment is kept. *)
Lemma normalizeLoop_plain (p : string) (a : bool) (segments : list string) :
  segments <> [] -> Forall plainSegment segments ->
  forall (pre res : string) (lsl : Z) (code : ascii),
    p = (pre ++ String.concat "/" segments)%string ->
    path.n_res
      (path.normalizeLoop p a
         (list_ascii_of_string (String.concat "/" segments))
         (JsString.len pre) code
         (path.mkNorm res lsl (JsString.len pre - 1) 0))
    = fold_left appendSegment segments res.
Proof.
  induction segments as [|seg rest IH]; [contradiction|].
  intros _ Hall pre res lsl code Hp.
  inversion Hall as [|? ? Hseg Hrest]; subst.
  pose proof Hseg as (Hne & Hslash & _).
  destruct (plainSegment_dots seg Hseg) as [Hd1 Hd2].
  assert (Hlen : 0 < JsString.len seg).
  { destruct seg; [contradiction|]. unfold JsString.len.
    cbn [String.length]. lia. }
  destruct rest as [|seg' rest].
  - (* the last segment is ended by the closing pass *)
    cbn [String.concat fold_left].
    rewrite <- (app_nil_r (list_ascii_of_string seg)), normalizeLoop_app.
    cbn [path.normalizeLoop].
    rewrite (last_noSlash seg code Hslash Hne).
    rewrite (normalizeRun_segment _ _ _ (noSlash_codes seg Hslash)).
    unfold path.normalizeStep.
    change (path.isPosixPathSeparator path.CHAR_FORWARD_SLASH) with true.
    cbv iota.
    rewrite length_list_ascii_of_string. fold (JsString.len seg).
    rewrite normalizeSeparator_keep by (assumption || lia).
    cbn [path.n_res]. f_equal.
    replace (JsString.len pre - 1 + 1) with (JsString.len pre) by lia.
    rewrite <- (append_nil_r seg) at 1.
    cbn [String.concat]. apply slice_middle.
  - (* a segment followed by a separator *)
    change (String.concat "/" (seg :: seg' :: rest))
      with (seg ++ "/" ++ String.concat "/" (seg' :: rest))%string in *.
    rewrite list_ascii_of_string_app, normalizeLoop_app.
    rewrite (normalizeRun_segment _ _ _ (noSlash_codes seg Hslash)).
    rewrite length_list_ascii_of_string. fold (JsString.len seg).
    cbn [append list_ascii_of_string path.normalizeLoop].
    unfold path.normalizeStep at 1.
    change (path.isPosixPathSeparator "/") with true. cbv iota.
    rewrite normalizeSeparator_keep by (assumption || lia).
    replace (JsString.len pre - 1 + 1) with (JsString.len pre) by lia.
    rewrite slice_middle.
    cbn [fold_left].
    specialize (IH ltac:(discriminate) Hrest (pre ++ seg ++ "/")%string
                  (appendSegment res seg)
                  (JsString.len pre + JsString.len seg
                   - (JsString.len pre - 1) - 1) "/"%char).
    rewrite !len_append in IH.
    change (JsString.len "/") with 1 in IH.
    replace (JsString.len pre + (JsString.len seg + 1) - 1)
      with (JsString.len pre + JsString.len seg) in IH by lia.
    replace (JsString.len pre + (JsString.len seg + 1))
      with (JsString.len pre + JsString.len seg + 1) in IH by lia.
    apply IH. rewrite !append_assoc. reflexivity.
Qed.

End PlainPaths.

Section PlainRoots.

Lemma appendSegment_nonempty (res seg : string) :
  res <> "" -> appendSegment res seg = res ++ "/" ++ seg.
Proof.
  intros Hres. unfold appendSegment, JsString.len.
  destruct res; [contradiction|]. reflexivity.
Qed.

Lemma fold_appendSegment (segments : list string) :
  forall res, res <> "" ->
    fold_left appendSegment segments res
    = match segments with
      | []%list => res
      | _ => res ++ "/" ++ String.concat "/" segments
      end.
Proof.
  induction segments as [|seg rest IH]; intros res Hres; [reflexivity|].
  cbn [fold_left]. rewrite (appendSegment_nonempty res seg Hres).
  rewrite IH by (destruct res; [contradiction | discriminate]).
  destruct rest as [|seg' rest]; [reflexivity|].
  change (String.concat "/" (seg :: seg' :: rest))
    with (seg ++ "/" ++ String.concat "/" (seg' :: rest)).
  rewrite !append_assoc. reflexivity.
Qed.

Lemma fold_appendSegment_start (segments : list string) :
  segments <> []%list -> Forall plainSegment segments ->
  fold_left appendSegment segments "" = String.concat "/" segments.
Proof.
  destruct segments as [|seg rest]; [contradiction|]. intros _ Hall.
  inversion Hall as [|? ? (Hne & _) _]; subst.
  cbn [fold_left]. change (appendSegment "" seg) with seg.
  rewrite (fold_appendSegment rest seg Hne).
  destruct rest; reflexivity.
Qed.

Lemma concat_nonempty (segments : list string) :
  segments <> []%list -> Forall plainSegment segments ->
  String.concat "/" segments <> "".
Proof.
  destruct segments as [|seg rest]; [contradiction|]. intros _ Hall.
  inversion Hall as [|? ? (Hne & _) _]; subst.
  destruct rest; cbn [String.concat];
    destruct seg; (contradiction || discriminate).
Qed.

Lemma concat_snoc (segments : list string) (seg : string) :
  segments <> []%list ->
  String.concat "/" (segments ++ [seg])
  = String.concat "/" segments ++ "/" ++ seg.
Proof.
  induction segments as [|s rest IH]; [contradiction|]. intros _.
  destruct rest as [|s' rest]; [reflexivity|].
  change (String.concat "/" ((s :: s' :: rest) ++ [seg]))
    with (s ++ "/" ++ String.concat "/" ((s' :: rest) ++ [seg])).
  rewrite IH by discriminate.
  change (String.concat "/" (s :: s' :: rest))
    with (s ++ "/" ++ String.concat "/" (s' :: rest)).
  rewrite !append_assoc. reflexivity.
Qed.

(** [normalizeString] keeps a path of plain segments, without the leading
    separator of an absolute one. *)
Lemma normalizeString_plainPath (absolute a : bool) (segments : list string) :
  segments <> []%list -> Forall plainSegment segments ->
  path.normalizeString (plainPath absolute segments) a
  = String.concat "/" segments.
Proof.
  intros Hne Hall. unfold path.normalizeString, plainPath.
  etransitivity; [|exact (fold_appendSegment_start segments Hne Hall)].
  destruct absolute.
  - cbn [append list_ascii_of_string path.normalizeLoop].
    change (path.normalizeStep _ a 0 "/" (path.mkNorm "" 0 (-1) 0))
      with (path.mkNorm "" 0 0 0).
    exact (normalizeLoop_plain _ a segments Hne Hall "/" "" 0 "/"%char
             eq_refl).
  - cbn [append].
    exact (normalizeLoop_plain _ a segments Hne Hall "" "" 0 zero eq_refl).
Qed.

End PlainRoots.

Section JoinFacts.

Lemma get_last (s : string) :
  forall c, String.get (String.length s) (String c s)
            = Some (last (c :: list_ascii_of_string s) zero).
Proof.
  induction s as [|c' s IH]; intros c; [reflexivity|].
  change (String.get (String.length s) (String c' s)
          = Some (last (c' :: list_ascii_of_string s) zero)).
  apply IH.
Qed.

Lemma codeIs_last (code : ascii) (s : string) :
  s <> "" ->
  path.codeIs code s (JsString.len s - 1)
  = Ascii.eqb code (last (list_ascii_of_string s) zero).
Proof.
  destruct s as [|c s]; [contradiction|]. intros _.
  unfold path.codeIs, JsString.len. cbn [String.length].
  destruct (Z.ltb_spec (Z.of_nat (S (String.length s)) - 1) 0) as [?|_]; [lia|].
  replace (Z.to_nat (Z.of_nat (S (String.length s)) - 1))
    with (String.length s) by lia.
  rewrite get_last. reflexivity.
Qed.

Lemma last_app_nonempty (l1 l2 : list ascii) (d : ascii) :
  l2 <> []%list -> last (l1 ++ l2)%list d = last l2 d.
Proof.
  intros Hl2. induction l1 as [|x l1 IH]; [reflexivity|].
  cbn [app]. destruct (l1 ++ l2)%list as [|y l] eqn:E.
  - destruct l1; [cbn [app] in E; contradiction | discriminate E].
  - change (last (x :: y :: l) d) with (last (y :: l) d). exact IH.
Qed.

Lemma concat_last_segment (segments : list string) :
  segments <> []%list -> Forall plainSegment segments ->
  exists front seg,
    plainSegment seg /\ String.concat "/" segments = front ++ seg.
Proof.
  induction segments as [|s rest IH]; [contradiction|]. intros _ Hall.
  inversion Hall as [|? ? Hs Hrest]; subst.
  destruct rest as [|s' rest].
  - exists "", s. split; [exact Hs | reflexivity].
  - destruct (IH ltac:(discriminate) Hrest) as (front & seg & Hseg & E).
    exists (s ++ "/" ++ front), seg. split; [exact Hseg|].
    change (String.concat "/" (s :: s' :: rest))
      with (s ++ "/" ++ String.concat "/" (s' :: rest)).
    rewrite E, !append_assoc. reflexivity.
Qed.

Lemma plainPath_nonempty (absolute : bool) (segments : list string) :
  segments <> []%list -> Forall plainSegment segments ->
  plainPath absolute segments <> "".
Proof.
  intros Hne Hall E. unfold plainPath in E.
  destruct absolute; [discriminate E|].
  exact (concat_nonempty segments Hne Hall E).
Qed.

Lemma plainPath_no_trailing_separator (absolute : bool)
    (segments : list string) :
  segments <> []%list -> Forall plainSegment segments ->
  path.codeIs path.CHAR_FORWARD_SLASH (plainPath absolute segments)
    (JsString.len (plainPath absolute segments) - 1)
  = false.
Proof.
  intros Hne Hall.
  rewrite codeIs_last by (apply plainPath_nonempty; assumption).
  destruct (concat_last_segment segments Hne Hall)
    as (front & seg & (Hsegne & Hslash & _) & E).
  unfold plainPath. rewrite E, <- append_assoc, list_ascii_of_string_app.
  rewrite last_app_nonempty
    by (destruct seg; [contradiction | discriminate]).
  rewrite Ascii.eqb_sym. exact (last_noSlash seg zero Hslash Hsegne).
Qed.

Lemma plainPath_is_absolute (absolute : bool) (segments : list string) :
  segments <> []%list -> Forall plainSegment segments ->
  path.codeIs path.CHAR_FORWARD_SLASH (plainPath absolute segments) 0
  = absolute.
Proof.
  intros Hne Hall. destruct absolute; [reflexivity|].
  destruct segments as [|s rest]; [contradiction|].
  inversion Hall as [|? ? (Hsne & Hslash & _) _]; subst.
  destruct s as [|c s]; [contradiction|].
  unfold noSlash in Hslash. cbn [allChars] in Hslash.
  apply andb_true_iff in Hslash as [Hc _]. apply negb_true_iff in Hc.
  unfold plainPath, path.codeIs.
  destruct rest; cbn [String.concat append String.get Z.ltb Z.compare Z.to_nat];
    rewrite Ascii.eqb_sym; exact Hc.
Qed.

(** [path.normalize] leaves a path of plain segments as it is. *)
Lemma normalize_plainPath (absolute : bool) (segments : list string) :
  segments <> []%list -> Forall plainSegment segments ->
  path.normalize (plainPath absolute segments) = plainPath absolute segments.
Proof.
  intros Hne Hall. unfold path.normalize.
  rewrite (plainPath_is_absolute absolute segments Hne Hall).
  rewrite (plainPath_no_trailing_separator absolute segments Hne Hall).
  rewrite normalizeString_plainPath by assumption.
  pose proof (plainPath_nonempty absolute segments Hne Hall) as Hp.
  pose proof (concat_nonempty segments Hne Hall) as Hc.
  unfold JsString.len.
  destruct (plainPath absolute segments) eqn:Ep; [contradiction|].
  destruct (String.concat "/" segments) eqn:Ec; [contradiction|].
  cbn [String.length]. rewrite <- Ep, <- Ec.
  destruct (Z.eqb_spec (Z.of_nat (S (String.length s))) 0) as [?|_]; [lia|].
  destruct (Z.eqb_spec (Z.of_nat (S (String.length s0))) 0) as [?|_]; [lia|].
  subst. unfold plainPath. destruct absolute; reflexivity.
Qed.

(** Joining a plain root and a plain segment puts one separator between
    them and changes nothing else; the result is a plain root again. *)
Lemma join_plainRoot (root seg : string) :
  plainRoot root -> plainSegment seg ->
  path.join [root; seg] = root ++ "/" ++ seg
  /\ plainRoot (root ++ "/" ++ seg).
Proof.
  intros (absolute & segments & Hne & Hall & Eroot) Hseg.
  assert (Hne' : (segments ++ [seg])%list <> []%list)
    by (destruct segments; discriminate).
  assert (Hall' : Forall plainSegment (segments ++ [seg])%list)
    by (apply Forall_app; split;
        [exact Hall | constructor; [exact Hseg | constructor]]).
  assert (E : root ++ "/" ++ seg = plainPath absolute (segments ++ [seg])%list).
  { subst root. unfold plainPath.
    rewrite (concat_snoc segments seg Hne), append_assoc. reflexivity. }
  split.
  - pose proof (plainPath_nonempty absolute segments Hne Hall) as Hroot.
    rewrite <- Eroot in Hroot. destruct Hseg as (Hsegne & _).
    unfold path.join. cbn [path.joinArgs].
    assert (Hlen : forall s, s <> "" -> (0 <? JsString.len s) = true).
    { intros s Hs. destruct s; [contradiction|]. reflexivity. }
    rewrite (Hlen root Hroot), (Hlen seg Hsegne), E.
    apply normalize_plainPath; assumption.
  - exists absolute, (segments ++ [seg])%list. auto.
Qed.

End JoinFacts.

Section VaultPaths.

Lemma plainSegment_pages : plainSegment "pages".
Proof. repeat split; discriminate. Qed.

Lemma plainSegment_journals : plainSegment "journals".
Proof. repeat split; discriminate. Qed.

Lemma plainRoot_g : plainRoot "/g".
Proof.
  exists true, ["g"]. split; [discriminate|]. split; [|reflexivity].
  constructor; [|constructor]. repeat split; discriminate.
Qed.

(** A file name [name.md] is a plain segment when [name] has no
    separator. *)
Lemma plainSegment_md (name : string) :
  noSlash name -> plainSegment (name ++ ".md").
Proof.
  intros Hname.
  assert (Hlen : (3 <= String.length (name ++ ".md"))%nat)
    by (rewrite length_append; cbn [String.length]; lia).
  repeat split.
  - intros E. rewrite E in Hlen. cbn [String.length] in Hlen. lia.
  - unfold noSlash in *. rewrite allChars_app, Hname. reflexivity.
  - intros E. rewrite E in Hlen. cbn [String.length] in Hlen. lia.
  - intros E. rewrite E in Hlen. cbn [String.length] in Hlen. lia.
Qed.

Lemma noSlash_slice (s : string) (k : Z) :
  noSlash s -> noSlash (JsString.slice s k None).
Proof.
  unfold noSlash, JsString.slice. rewrite !allChars_forallb, substring_list.
  intros H. apply forallb_forall. intros c Hc.
  apply (proj1 (forallb_forall _ _) H c).
  rewrite <- (firstn_skipn
                (Z.to_nat (JsString.clamp (JsString.len s) k))
                (list_ascii_of_string s)).
  apply in_or_app. right.
  match type of Hc with
  | In _ (firstn ?m ?l) => rewrite <- (firstn_skipn m l)
  end.
  apply in_or_app. left. exact Hc.
Qed.

Lemma noSlash_flattenForPage (s : string) :
  noSlash s -> noSlash (flattenForPage s).
Proof. apply replaceDots_noSlash. reflexivity. Qed.

Lemma noSlash_flattenForJournalSuffix (s root : string) :
  noSlash s -> noSlash (flattenForJournalSuffix s root).
Proof.
  intros H. apply replaceDots_noSlash; [reflexivity|].
  apply noSlash_slice, H.
Qed.

Variable this : Vault.
Hypothesis Hroot : plainRoot (logseqGraph this).

Lemma logseqPageDir_plain :
  logseqPageDir this = logseqGraph this ++ "/pages"
  /\ plainRoot (logseqGraph this ++ "/pages").
Proof. apply join_plainRoot; [exact Hroot | exact plainSegment_pages]. Qed.

Lemma logseqJournalDir_plain :
  logseqJournalDir this = logseqGraph this ++ "/journals"
  /\ plainRoot (logseqGraph this ++ "/journals").
Proof. apply join_plainRoot; [exact Hroot | exact plainSegment_journals]. Qed.

Lemma logseqPagePath_plain (node : string) :
  endsWithSlash node = false ->
  logseqPagePath this node
  = logseqGraph this ++ "/pages/"
    ++ flattenForPage (dendronNodeHierarchyPosition this node) ++ ".md".
Proof.
  intros Hend. unfold logseqPagePath.
  destruct logseqPageDir_plain as [Edir Hdir]. rewrite Edir.
  destruct (join_plainRoot _
              (flattenForPage (dendronNodeHierarchyPosition this node) ++ ".md")
              Hdir) as [E _].
  - apply plainSegment_md, noSlash_flattenForPage, position_noSlash, Hend.
  - rewrite E, append_assoc. reflexivity.
Qed.

Lemma logseqJournalPath_plain (root node : string) :
  dendronJournalHierarchy this = Some root ->
  endsWithSlash node = false ->
  logseqJournalPath this node
  = Return (logseqGraph this ++ "/journals/"
            ++ flattenForJournalSuffix
                 (dendronNodeHierarchyPosition this node) root
            ++ ".md").
Proof.
  intros Hcfg Hend. unfold logseqJournalPath. rewrite Hcfg.
  destruct logseqJournalDir_plain as [Edir Hdir]. rewrite Edir.
  destruct (join_plainRoot _
              (flattenForJournalSuffix
                 (dendronNodeHierarchyPosition this node) root ++ ".md")
              Hdir) as [E _].
  - apply plainSegment_md, noSlash_flattenForJournalSuffix, position_noSlash,
      Hend.
  - rewrite E, append_assoc. reflexivity.
Qed.

End VaultPaths.

Section MoreVaultLemmas.

Variable this : Vault.

(** The identifier of the file [name.md] in the directory [dir]. *)
Lemma position_in_directory (dir name : string) :
  noSlash name -> name <> "" ->
  dendronNodeHierarchyPosition this (dir ++ "/" ++ name ++ ".md") = name.
Proof.
  intros Hslash Hname. rewrite <- append_assoc.
  apply position_of_md; [exact Hslash | exact Hname |].
  rewrite list_ascii_of_string_app, rev_app_distr. reflexivity.
Qed.

Lemma flattenForPage_idempotent (identifier : string) :
  flattenForPage (flattenForPage identifier) = flattenForPage identifier.
Proof.
  apply replaceDots_noDot, replaceDots_noDot_result. reflexivity.
Qed.

Lemma flattenForPage_injective (a b : string) :
  noUnderscore a -> noUnderscore b ->
  flattenForPage a = flattenForPage b -> a = b.
Proof.
  intros Ha Hb H.
  rewrite <- (unflattenPage_flattenForPage a Ha).
  rewrite <- (unflattenPage_flattenForPage b Hb).
  rewrite H. reflexivity.
Qed.

Lemma logseqDestPath_page (node : string) :
  truthy (isDendronJournalNode this node) = false ->
  logseqDestPath this node = Return (logseqPagePath this node).
Proof. intros H. unfold logseqDestPath. rewrite H. reflexivity. Qed.

Lemma logseqDestPath_journal (node : string) :
  truthy (isDendronJournalNode this node) = true ->
  logseqDestPath this node = logseqJournalPath this node.
Proof. intros H. unfold logseqDestPath. rewrite H. reflexivity. Qed.

End MoreVaultLemmas.

(* ===================================================================== *)
(** ** Further properties of [Vault] *)
(* ===================================================================== *)

(** X1. With a configured journal root, the membership test answers [true]
    exactly for the identifiers that consist of the root, one dot and any
    rest (the empty rest included). *)
Theorem journal_member_iff (vault : Vault) (root node : string) :
  dendronJournalHierarchy vault = Some root ->
  isDendronJournalNode vault node = boolean true
  <-> exists rest, dendronNodeHierarchyPosition vault node = root ++ "." ++ rest.
Proof.
  intros Hcfg. split.
  - unfold isDendronJournalNode, JsString.startsWith. rewrite Hcfg.
    intros H. injection H as H.
    destruct (prefix_split _ _ H) as [rest Hrest]. exists rest.
    rewrite Hrest. apply append_assoc.
  - intros [rest Hrest].
    exact (isDendronJournalNode_member vault root rest node Hcfg Hrest).
Qed.

Lemma journal_member_iff_witness :
  dendronJournalHierarchy dailyVault = Some "daily"
  /\ isDendronJournalNode dailyVault "/v/daily.2024.01.15.md" = boolean true.
Proof.
  split; [reflexivity|].
  apply (proj2 (journal_member_iff dailyVault "daily"
                  "/v/daily.2024.01.15.md" eq_refl)).
  exists "2024.01.15". reflexivity.
Defined.

(** X2. For a journal member [root.rest] the dispatcher returns the journal
    directory joined with [rest], its dots replaced by single underscores,
    and [.md]: exactly the root and one delimiter are cut off. *)
Theorem journal_member_destination (vault : Vault) (root rest node : string) :
  dendronJournalHierarchy vault = Some root ->
  dendronNodeHierarchyPosition vault node = root ++ "." ++ rest ->
  logseqDestPath vault node
  = Return (path.join [logseqJournalDir vault;
                       JsString.replaceDots "_" rest ++ ".md"]).
Proof.
  intros Hcfg Hpos.
  rewrite logseqDestPath_journal
    by (rewrite (isDendronJournalNode_member vault root rest node Hcfg Hpos);
        reflexivity).
  unfold logseqJournalPath.
  rewrite Hcfg, Hpos, flattenForJournalSuffix_member. reflexivity.
Qed.

Lemma journal_member_destination_witness :
  dendronNodeHierarchyPosition dailyVault "/v/daily.2024.01.15.md"
  = "daily" ++ "." ++ "2024.01.15"
  /\ logseqDestPath dailyVault "/v/daily.2024.01.15.md"
     = Return (path.join [logseqJournalDir dailyVault;
                          JsString.replaceDots "_" "2024.01.15" ++ ".md"]).
Proof.
  split; [reflexivity|].
  exact (journal_member_destination dailyVault "daily" "2024.01.15"
           "/v/daily.2024.01.15.md" eq_refl eq_refl).
Defined.

(** X3. The identifier of a file [name.md], alone or below any directory,
    is [name], for every non-empty [name] without path separator. *)
Theorem position_of_md_file (vault : Vault) (name : string) :
  noSlash name -> name <> "" ->
  dendronNodeHierarchyPosition vault (name ++ ".md") = name
  /\ forall dir,
       dendronNodeHierarchyPosition vault (dir ++ "/" ++ name ++ ".md") = name.
Proof.
  intros Hslash Hname. split.
  - exact (position_of_md vault "" name Hslash Hname eq_refl).
  - intros dir. exact (position_in_directory vault dir name Hslash Hname).
Qed.

Lemma position_of_md_file_witness :
  noSlash "projects.alpha.notes"
  /\ dendronNodeHierarchyPosition dailyVault "/v/projects.alpha.notes.md"
     = "projects.alpha.notes".
Proof.
  split; [reflexivity|].
  refine (proj2 (position_of_md_file dailyVault "projects.alpha.notes"
                   eq_refl _) "/v").
  discriminate.
Defined.

(** X4. The identifier of a source path that does not end in a path
    separator contains no path separator. *)
Theorem position_has_no_separator (vault : Vault) (node : string) :
  endsWithSlash node = false ->
  noSlash (dendronNodeHierarchyPosition vault node).
Proof. apply position_noSlash. Qed.

Lemma position_has_no_separator_witness :
  endsWithSlash "/v/sub/daily.2024.01.15.md" = false
  /\ noSlash (dendronNodeHierarchyPosition dailyVault
                "/v/sub/daily.2024.01.15.md").
Proof.
  split; [reflexivity|].
  exact (position_has_no_separator dailyVault "/v/sub/daily.2024.01.15.md"
           eq_refl).
Defined.

(** X5. Collisions are not detected: a note [identifier.md] and a note
    named after its page flattening get the same page path, in whatever
    directories they lie, and the two identifiers differ as soon as the
    first contains a dot. *)
Theorem page_flattening_collides (vault : Vault) (identifier dir1 dir2 : string) :
  noSlash identifier -> identifier <> "" ->
  logseqPagePath vault (dir1 ++ "/" ++ identifier ++ ".md")
  = logseqPagePath vault (dir2 ++ "/" ++ flattenForPage identifier ++ ".md")
  /\ (countChar "."%char identifier <> 0%nat ->
      flattenForPage identifier <> identifier).
Proof.
  intros Hslash Hne. split.
  - unfold logseqPagePath.
    rewrite (position_in_directory vault dir1 identifier Hslash Hne).
    rewrite (position_in_directory vault dir2 (flattenForPage identifier)
               (noSlash_flattenForPage identifier Hslash)
               (flattenForPage_nonempty identifier Hne)).
    rewrite flattenForPage_idempotent. reflexivity.
  - intros Hdots E. apply Hdots. rewrite <- E.
    apply flattenForPage_has_no_dot.
Qed.

Lemma page_flattening_collides_witness :
  noSlash "a.b"
  /\ logseqPagePath plainVault "/v/a.b.md" = logseqPagePath plainVault "/v/a___b.md"
  /\ flattenForPage "a.b" <> "a.b".
Proof.
  split; [reflexivity|].
  destruct (page_flattening_collides plainVault "a.b" "/v" "/v" eq_refl
              ltac:(discriminate)) as [Hsame Hdiff].
  split; [exact Hsame | apply Hdiff; discriminate].
Defined.

(** X6. The page flattening is injective on identifiers without
    underscore. *)
Theorem page_flattening_injective (a b : string) :
  noUnderscore a -> noUnderscore b ->
  flattenForPage a = flattenForPage b -> a = b.
Proof. apply flattenForPage_injective. Qed.

Lemma page_flattening_injective_witness :
  noUnderscore "a.b" /\ "a.b" = "a.b".
Proof.
  split; [reflexivity|].
  exact (page_flattening_injective "a.b" "a.b" eq_refl eq_refl eq_refl).
Defined.

(** X7. The journal flattening is injective on what follows the journal
    root, as long as that contains no underscore. *)
Theorem journal_flattening_injective (root a b : string) :
  noUnderscore a -> noUnderscore b ->
  flattenForJournalSuffix (root ++ "." ++ a) root
  = flattenForJournalSuffix (root ++ "." ++ b) root ->
  a = b.
Proof.
  intros Ha Hb. rewrite !flattenForJournalSuffix_member.
  apply replaceDots_underscore_injective; assumption.
Qed.

Lemma journal_flattening_injective_witness :
  noUnderscore "2024.01.15" /\ "2024.01.15" = "2024.01.15".
Proof.
  split; [reflexivity|].
  exact (journal_flattening_injective "daily" "2024.01.15" "2024.01.15"
           eq_refl eq_refl eq_refl).
Defined.

(** X8. The page flattening makes an identifier two characters longer for
    each of its dots; the journal flattening of a member [root.rest] is as
    long as [rest]. *)
Theorem flattening_lengths (identifier root rest : string) :
  String.length (flattenForPage identifier)
  = (String.length identifier + 2 * countChar "."%char identifier)%nat
  /\ String.length (flattenForJournalSuffix (root ++ "." ++ rest) root)
     = String.length rest.
Proof.
  split.
  - apply flattenForPage_length.
  - rewrite flattenForJournalSuffix_member.
    apply replaceDots_underscore_length.
Qed.

(** X9. The journal-path renderer does not test membership: called on an
    identifier that is the journal root itself, or any other beginning of
    the root followed by a dot, it cuts everything off and returns the file
    [.md] of the journal directory. *)
Theorem journal_renderer_without_gate
    (vault : Vault) (root node rest : string) :
  dendronJournalHierarchy vault = Some root ->
  root ++ "." = dendronNodeHierarchyPosition vault node ++ rest ->
  logseqJournalPath vault node
  = Return (path.join [logseqJournalDir vault; ".md"]).
Proof.
  intros Hcfg Hbegin. unfold logseqJournalPath, flattenForJournalSuffix.
  rewrite Hcfg, slice_past_end; [reflexivity|].
  apply (f_equal JsString.len) in Hbegin. rewrite !len_append in Hbegin.
  change (JsString.len ".") with 1 in Hbegin.
  assert (0 <= JsString.len rest) by (unfold JsString.len; lia). lia.
Qed.

Lemma journal_renderer_without_gate_witness :
  isDendronJournalNode dailyVault "/v/daily.md" = boolean false
  /\ logseqJournalPath dailyVault "/v/daily.md" = Return "/g/journals/.md".
Proof.
  split; [reflexivity|].
  exact (journal_renderer_without_gate dailyVault "daily" "/v/daily.md" "."
           eq_refl eq_refl).
Defined.

(** X10. For a destination root in normal form (segments that are neither
    empty, [.] nor [..], joined by single separators, absolute or relative)
    the journal and page directories are the root followed by [/journals]
    and [/pages]. *)
Theorem vault_directories (vault : Vault) :
  plainRoot (logseqGraph vault) ->
  logseqJournalDir vault = logseqGraph vault ++ "/journals"
  /\ logseqPageDir vault = logseqGraph vault ++ "/pages".
Proof.
  intros Hroot. split.
  - exact (proj1 (logseqJournalDir_plain vault Hroot)).
  - exact (proj1 (logseqPageDir_plain vault Hroot)).
Qed.

Lemma vault_directories_witness :
  logseqJournalDir dailyVault = "/g/journals"
  /\ logseqPageDir dailyVault = "/g/pages".
Proof. exact (vault_directories dailyVault plainRoot_g). Defined.

(** X11. For a destination root in normal form and a source path that does
    not end in a separator and is not classified as a journal member, the
    destination is the root, [/pages/], the page flattening of the
    identifier and [.md]. *)
Theorem page_destination_form (vault : Vault) (node : string) :
  plainRoot (logseqGraph vault) ->
  endsWithSlash node = false ->
  truthy (isDendronJournalNode vault node) = false ->
  logseqDestPath vault node
  = Return (logseqGraph vault ++ "/pages/"
            ++ flattenForPage (dendronNodeHierarchyPosition vault node)
            ++ ".md").
Proof.
  intros Hroot Hend Hpage.
  rewrite (logseqDestPath_page vault node Hpage).
  rewrite (logseqPagePath_plain vault Hroot node Hend). reflexivity.
Qed.

Lemma page_destination_form_witness :
  logseqDestPath dailyVault "/v/projects.alpha.notes.md"
  = Return ("/g" ++ "/pages/" ++ flattenForPage "projects.alpha.notes" ++ ".md").
Proof.
  exact (page_destination_form dailyVault "/v/projects.alpha.notes.md"
           plainRoot_g eq_refl eq_refl).
Defined.

(** X12. For a destination root in normal form and a source path that does
    not end in a separator and whose identifier is [root.rest] for the
    configured journal root, the destination is the destination root,
    [/journals/], [rest] with its dots replaced by single underscores, and
    [.md]. *)
Theorem journal_destination_form (vault : Vault) (root rest node : string) :
  plainRoot (logseqGraph vault) ->
  endsWithSlash node = false ->
  dendronJournalHierarchy vault = Some root ->
  dendronNodeHierarchyPosition vault node = root ++ "." ++ rest ->
  logseqDestPath vault node
  = Return (logseqGraph vault ++ "/journals/"
            ++ JsString.replaceDots "_" rest ++ ".md").
Proof.
  intros Hroot Hend Hcfg Hpos.
  rewrite logseqDestPath_journal
    by (rewrite (isDendronJournalNode_member vault root rest node Hcfg Hpos);
        reflexivity).
  rewrite (logseqJournalPath_plain vault Hroot root node Hcfg Hend).
  rewrite Hpos, flattenForJournalSuffix_member. reflexivity.
Qed.

Lemma journal_destination_form_witness :
  logseqDestPath dailyVault "/v/daily.2024.01.15.md"
  = Return ("/g" ++ "/journals/" ++ JsString.replaceDots "_" "2024.01.15"
            ++ ".md").
Proof.
  exact (journal_destination_form dailyVault "daily" "2024.01.15"
           "/v/daily.2024.01.15.md" plainRoot_g eq_refl eq_refl eq_refl).
Defined.

(** X13. For a destination root in normal form, a journal member and a
    note that is not one never get the same destination (source paths not
    ending in a separator). *)
Theorem journal_and_page_destinations_differ
    (vault : Vault) (node1 node2 : string) :
  plainRoot (logseqGraph vault) ->
  endsWithSlash node1 = false -> endsWithSlash node2 = false ->
  truthy (isDendronJournalNode vault node1) = true ->
  truthy (isDendronJournalNode vault node2) = false ->
  logseqDestPath vault node1 <> logseqDestPath vault node2.
Proof.
  intros Hroot Hend1 Hend2 Hj Hp.
  destruct (gate_implies_configured vault node1 Hj) as [root Hcfg].
  rewrite (logseqDestPath_journal vault node1 Hj).
  rewrite (logseqJournalPath_plain vault Hroot root node1 Hcfg Hend1).
  rewrite (logseqDestPath_page vault node2 Hp).
  rewrite (logseqPagePath_plain vault Hroot node2 Hend2).
  intros E. injection E as E. apply append_cancel_l in E.
  cbn [append] in E. discriminate E.
Qed.

Lemma journal_and_page_destinations_differ_witness :
  logseqDestPath dailyVault "/v/daily.2024.01.15.md"
  <> logseqDestPath dailyVault "/v/daily.md".
Proof.
  exact (journal_and_page_destinations_differ dailyVault
           "/v/daily.2024.01.15.md" "/v/daily.md" plainRoot_g
           eq_refl eq_refl eq_refl eq_refl).
Defined.

(** X14. For a destination root in normal form, two notes that are not
    journal members and whose identifiers contain no underscore get the
    same destination only when their identifiers are equal. *)
Theorem page_destinations_distinct (vault : Vault) (node1 node2 : string) :
  plainRoot (logseqGraph vault) ->
  endsWithSlash node1 = false -> endsWithSlash node2 = false ->
  truthy (isDendronJournalNode vault node1) = false ->
  truthy (isDendronJournalNode vault node2) = false ->
  noUnderscore (dendronNodeHierarchyPosition vault node1) ->
  noUnderscore (dendronNodeHierarchyPosition vault node2) ->
  logseqDestPath vault node1 = logseqDestPath vault node2 ->
  dendronNodeHierarchyPosition vault node1
  = dendronNodeHierarchyPosition vault node2.
Proof.
  intros Hroot Hend1 Hend2 Hp1 Hp2 Hu1 Hu2.
  rewrite (logseqDestPath_page vault node1 Hp1).
  rewrite (logseqDestPath_page vault node2 Hp2).
  rewrite (logseqPagePath_plain vault Hroot node1 Hend1).
  rewrite (logseqPagePath_plain vault Hroot node2 Hend2).
  intros E. injection E as E.
  apply append_cancel_l, (append_cancel_l "/pages/"), append_cancel_r in E.
  exact (flattenForPage_injective _ _ Hu1 Hu2 E).
Qed.

Lemma page_destinations_distinct_witness :
  logseqDestPath dailyVault "/v/projects.alpha.md"
  = logseqDestPath dailyVault "/w/projects.alpha.md"
  /\ dendronNodeHierarchyPosition dailyVault "/v/projects.alpha.md"
     = dendronNodeHierarchyPosition dailyVault "/w/projects.alpha.md".
Proof.
  split; [reflexivity|].
  exact (page_destinations_distinct dailyVault "/v/projects.alpha.md"
           "/w/projects.alpha.md" plainRoot_g eq_refl eq_refl eq_refl eq_refl
           eq_refl eq_refl eq_refl).
Defined.

(** X15. For a destination root in normal form, two journal members
    [root.rest1] and [root.rest2] whose rests contain no underscore get the
    same destination only when the rests are equal. *)
Theorem journal_destinations_distinct
    (vault : Vault) (root rest1 rest2 node1 node2 : string) :
  plainRoot (logseqGraph vault) ->
  endsWithSlash node1 = false -> endsWithSlash node2 = false ->
  dendronJournalHierarchy vault = Some root ->
  dendronNodeHierarchyPosition vault node1 = root ++ "." ++ rest1 ->
  dendronNodeHierarchyPosition vault node2 = root ++ "." ++ rest2 ->
  noUnderscore rest1 -> noUnderscore rest2 ->
  logseqDestPath vault node1 = logseqDestPath vault node2 ->
  rest1 = rest2.
Proof.
  intros Hroot Hend1 Hend2 Hcfg Hpos1 Hpos2 Hu1 Hu2.
  rewrite !logseqDestPath_journal
    by (erewrite isDendronJournalNode_member by eassumption; reflexivity).
  rewrite (logseqJournalPath_plain vault Hroot root node1 Hcfg Hend1).
  rewrite (logseqJournalPath_plain vault Hroot root node2 Hcfg Hend2).
  rewrite Hpos1, Hpos2, !flattenForJournalSuffix_member.
  intros E. injection E as E.
  apply append_cancel_l, (append_cancel_l "/journals/"), append_cancel_r in E.
  exact (replaceDots_underscore_injective _ _ Hu1 Hu2 E).
Qed.

Lemma journal_destinations_distinct_witness :
  logseqDestPath dailyVault "/v/daily.2024.01.15.md"
  = logseqDestPath dailyVault "/w/daily.2024.01.15.md"
  /\ "2024.01.15" = "2024.01.15".
Proof.
  split; [reflexivity|].
  exact (journal_destinations_distinct dailyVault "daily" "2024.01.15"
           "2024.01.15" "/v/daily.2024.01.15.md" "/w/daily.2024.01.15.md"
           plainRoot_g eq_refl eq_refl eq_refl eq_refl eq_refl eq_refl eq_refl
           eq_refl).
Defined.

Section OtherNames.

Local Open Scope list_scope.

Lemma stripMdRev_changes (rf : list ascii) :
  stripMdRev rf <> rf ->
  exists rest, rf = "d"%char :: "m"%char :: "."%char :: rest.
Proof.
  destruct rf as [|c1 [|c2 [|c3 [|c4 rest]]]];
    try (intros H; exfalso; apply H; reflexivity).
  unfold stripMdRev.
  destruct (Ascii.eqb_spec c1 "d"%char) as [E1|_];
    [|intros H; exfalso; apply H; reflexivity].
  destruct (Ascii.eqb_spec c2 "m"%char) as [E2|_];
    [|intros H; exfalso; apply H; reflexivity].
  destruct (Ascii.eqb_spec c3 "."%char) as [E3|_];
    [|intros H; exfalso; apply H; reflexivity].
  intros _. subst. exists (c4 :: rest). reflexivity.
Qed.

(** The identifier of a file in a directory, whatever its name. *)
Lemma position_of_name (this : Vault) (dir name : string) :
  noSlash name -> name <> ""%string ->
  dendronNodeHierarchyPosition this (dir ++ "/" ++ name)%string = stripMd name.
Proof.
  intros Hslash Hname. unfold dendronNodeHierarchyPosition.
  assert (Hcodes : path.codesFromEnd (dir ++ "/" ++ name)%string
                   = rev (list_ascii_of_string name)
                     ++ "/"%char :: rev (list_ascii_of_string dir)).
  { unfold path.codesFromEnd.
    rewrite !list_ascii_of_string_app, !rev_app_distr, <- app_assoc.
    reflexivity. }
  assert (Hlast : lastComponentRev (path.codesFromEnd (dir ++ "/" ++ name)%string)
                  = rev (list_ascii_of_string name)).
  { rewrite Hcodes. apply lastComponentRev_app; [|reflexivity].
    apply forallb_rev_true, noSlash_codes, Hslash. }
  assert (Hend : endsWithSlash (dir ++ "/" ++ name)%string = false).
  { unfold endsWithSlash. rewrite Hcodes.
    destruct (rev (list_ascii_of_string name)) as [|c rest] eqn:Hrev.
    - exfalso. apply Hname.
      rewrite <- (string_of_list_ascii_of_string name).
      rewrite <- (rev_involutive (list_ascii_of_string name)), Hrev.
      reflexivity.
    - cbn [app]. apply negb_true_iff.
      assert (Hall := forallb_rev_true _ _ (noSlash_codes name Hslash)).
      rewrite Hrev in Hall. cbn [forallb] in Hall.
      apply andb_true_iff in Hall as [Hc _]. exact Hc. }
  rewrite basename_md_noTrailing.
  - cbn [path.basename]. rewrite (basenamePlain_noTrailing _ Hend), Hlast.
    rewrite rev_involutive, string_of_list_ascii_of_string. reflexivity.
  - exact Hend.
  - intros E.
    apply (f_equal (allChars (fun c => negb (path.isPosixPathSeparator c))))
      in E.
    rewrite !allChars_app in E.
    change (allChars _ "/"%string) with false in E.
    rewrite andb_false_l, andb_false_r in E. discriminate E.
Qed.

Lemma stripMd_without_extension (name : string) :
  (forall stem, name <> stem ++ ".md")%string -> stripMd name = name.
Proof.
  intros Hext. unfold stripMd.
  destruct (list_eq_dec ascii_dec
              (stripMdRev (rev (list_ascii_of_string name)))
              (rev (list_ascii_of_string name))) as [E|N].
  - rewrite E, rev_involutive. apply string_of_list_ascii_of_string.
  - exfalso. destruct (stripMdRev_changes _ N) as [rest Hrest].
    apply (Hext (string_of_list_ascii (rev rest))).
    rewrite <- (string_of_list_ascii_of_string name) at 1.
    rewrite <- (rev_involutive (list_ascii_of_string name)), Hrest.
    cbn [rev]. rewrite <- !app_assoc. cbn [app].
    rewrite string_of_list_ascii_app. reflexivity.
Qed.

End OtherNames.

(** X16. Only a final [.md], in lower case, is taken off: a file in a
    directory whose name has no such ending ([Note.MD], [README]) keeps its
    whole name as identifier. *)
Theorem position_without_md_extension (vault : Vault) (dir name : string) :
  noSlash name -> name <> "" ->
  (forall stem, name <> stem ++ ".md") ->
  dendronNodeHierarchyPosition vault (dir ++ "/" ++ name) = name.
Proof.
  intros Hslash Hname Hext.
  rewrite (position_of_name vault dir name Hslash Hname).
  apply stripMd_without_extension, Hext.
Qed.

Lemma position_without_md_extension_witness :
  dendronNodeHierarchyPosition dailyVault ("/v" ++ "/" ++ "Note.MD")
  = "Note.MD".
Proof.
  apply position_without_md_extension; [reflexivity | discriminate |].
  intros stem E.
  apply (f_equal (fun s => rev (list_ascii_of_string s))) in E.
  rewrite list_ascii_of_string_app, rev_app_distr in E.
  discriminate E.
Defined.

(** X17. Mapping is idempotent on pages: for a destination root in normal
    form, a source path that does not end in a separator and a non-empty
    identifier, the page path of the page path is the page path. *)
Theorem page_path_idempotent (vault : Vault) (node : string) :
  plainRoot (logseqGraph vault) ->
  endsWithSlash node = false ->
  dendronNodeHierarchyPosition vault node <> "" ->
  logseqPagePath vault (logseqPagePath vault node) = logseqPagePath vault node.
Proof.
  intros Hroot Hend Hne.
  rewrite (logseqPagePath_plain vault Hroot node Hend).
  set (flat := flattenForPage (dendronNodeHierarchyPosition vault node)).
  assert (Hflat : noSlash flat)
    by (apply noSlash_flattenForPage, position_noSlash, Hend).
  assert (Hflatne : flat <> "") by (apply flattenForPage_nonempty, Hne).
  assert (Hshape : logseqGraph vault ++ "/pages/" ++ flat ++ ".md"
                   = (logseqGraph vault ++ "/pages") ++ "/" ++ flat ++ ".md")
    by (rewrite append_assoc; reflexivity).
  rewrite logseqPagePath_plain.
  - rewrite Hshape at 1.
    rewrite (position_in_directory vault _ flat Hflat Hflatne).
    unfold flat. rewrite flattenForPage_idempotent. reflexivity.
  - exact Hroot.
  - rewrite Hshape, <- append_assoc. unfold endsWithSlash.
    rewrite codesFromEnd_md. reflexivity.
Qed.

Lemma page_path_idempotent_witness :
  logseqPagePath dailyVault
    (logseqPagePath dailyVault "/v/projects.alpha.notes.md")
  = logseqPagePath dailyVault "/v/projects.alpha.notes.md".
Proof.
  apply page_path_idempotent;
    [exact plainRoot_g | reflexivity | vm_compute; discriminate].
Defined.
